(** * RemoteConnection: connection factory, reconnection and registry

    A shallow embedding of [RemoteConnection.js] (nuclide-remote-connection).
    The class is asynchronous JavaScript that mutates process-wide state (the
    sessions of [ServerConnection], the static [Emitter], the logger).  It is
    modelled as a state-and-exception monad over an explicit [World]; every
    observable effect is appended to a trace, so that ordering properties
    ("attach before emit", "no saved-config lookup") are statements about the
    trace.  Collaborators that live outside this file of the program (the
    remote services, the parsers, nuclideUri, the configuration store, DNS)
    are fields of a record [Externals] over which all results are
    quantified. *)

From Stdlib Require Import String List Arith Bool Lia.
From stdpp Require Import base option list strings gmap.

Local Open Scope string_scope.
Local Open Scope list_scope.

(** ** JavaScript values that cross the interface *)

(** A thrown error object: the fields the code inspects or assigns. *)
Record JsError := mkError {
  err_name : string;                       (* e.name *)
  err_code : option string;                (* e.code *)
  err_message : string;
  sshHandshakeErrorType : option string    (* assigned at line 203 *)
}.

(** The settlement of a promise, or the completion of a synchronous call. *)
Inductive Outcome (A : Type) : Type :=
| Returned (a : A)
| Thrown (e : JsError).
Arguments Returned {A} a.
Arguments Thrown {A} e.

(** [RemoteConnectionConfiguration], lines 38-49. *)
Record RemoteConnectionConfiguration := mkConfig {
  host : string;
  port : nat;
  family : option nat;
  cwd : string;
  displayTitle : string;
  certificateAuthorityCertificate : option string;
  clientCertificate : option string;
  clientKey : option string;
  promptReconnectOnFailure : option bool;
  version : option string
}.

(** The value of the [paths] property of a parsed project file. *)
Inductive PathsValue :=
| PathsUndefined
| PathsNotArray (v : string)
| PathsArray (l : list string).

Record ProjectContents := mkProject {
  paths : PathsValue;
  originPath : option string;
  otherKeys : string
}.

#[global] Instance PathsValue_eq_dec : EqDecision PathsValue.
Proof. solve_decision. Defined.
#[global] Instance ProjectContents_eq_dec : EqDecision ProjectContents.
Proof. solve_decision. Defined.

Definition HgRepositoryDescription := string.

(** A [RemoteConnection] object.  The fields assigned once by the constructor
    identify the object together with [oid], its identity on the heap; the
    fields that are reassigned later live in [ObjState]. *)
Record RemoteConnection := mkConn {
  oid : nat;
  _cwd : string;
  _connection : string;          (* the ServerConnection, by its hostname key *)
  _displayTitle : string;
  _promptReconnectOnFailure : bool
}.

Record ObjState := mkObj {
  _hgRepositoryDescription : option HgRepositoryDescription;
  _alwaysShutdownIfLast : bool;
  _subscriptions : list string;
  _disposed : bool
}.

#[global] Instance RemoteConnection_eq_dec : EqDecision RemoteConnection.
Proof. solve_decision. Defined.

(** Modelled from the spec: the [ServerConnection] class is imported from
    './ServerConnection' and is not part of this file.  A session keeps the
    list of attached connections in attachment order, can be closed, and has
    an always-shutdown flag of its own (spec 3 and 4.5). *)
Record ServerConnection := mkServer {
  sc_config : RemoteConnectionConfiguration;
  _connections : list RemoteConnection;
  sc_alwaysShutdownIfLast : bool;
  sc_closeCalls : nat
}.

Inductive LogLevel := LInfo | LWarn | LError.
Inductive Parser := Toml | Season.

#[global] Instance LogLevel_eq_dec : EqDecision LogLevel.
Proof. solve_decision. Defined.
#[global] Instance Parser_eq_dec : EqDecision Parser.
Proof. solve_decision. Defined.

(** Observable effects, in the order in which they happen. *)
Inductive Event :=
| EvSessionAcquire (h : string)
| EvSessionClose (h : string)
| EvAttach (c : RemoteConnection)
| EvDetach (c : RemoteConnection) (shutdownIfLast : bool)
| EvRpc (h service method arg : string)
| EvParse (p : Parser) (raw : string)
| EvProjectReplace (pc : ProjectContents)
| EvEmit (name : string) (c : RemoteConnection)
| EvWatch (c : RemoteConnection)
| EvDispose (c : RemoteConnection)
| EvLog (lvl : LogLevel) (msg : string)
| EvSavedConfig (h : string)
| EvDns (h : string).

#[global] Instance Event_eq_dec : EqDecision Event.
Proof. solve_decision. Defined.

Record World := mkWorld {
  servers : gmap string ServerConnection;   (* ServerConnection.getByHostname *)
  objects : gmap nat ObjState;              (* mutable fields of live objects *)
  nextOid : nat;
  trace : list Event
}.

(** How a detachment can go wrong: before the connection has been taken off
    the session, or after the session has done its part. *)
Inductive DetachFault :=
| NoFault
| FaultBefore (e : JsError)
| FaultAfter (e : JsError).

(** Everything the class calls that is defined elsewhere. *)
Record Externals := mkExt {
  (* nuclide-commons/nuclideUri *)
  uri_extname : string -> string;
  uri_dirname : string -> string;
  uri_resolve : string -> string -> string;
  uri_isRemote : string -> bool;
  uri_getHostname : string -> string;
  uri_parse : string -> option string * string;     (* {hostname, path} *)
  (* ServerConnection: establishing a new session, detaching *)
  connect : RemoteConnectionConfiguration -> option JsError;
  detachFault : RemoteConnection -> bool -> DetachFault;
  (* FileSystemService of a session *)
  resolveRealPath : string -> string -> Outcome string;
  readFile : string -> string -> Outcome string;
  (* SourceControlService of a session *)
  getHgRepository : string -> string -> Outcome (option HgRepositoryDescription);
  (* FileWatcherService: a synchronous failure while subscribing *)
  watchFault : RemoteConnection -> option JsError;
  (* toml.parse and season.parse *)
  toml_parse : string -> Outcome ProjectContents;
  season_parse : string -> Outcome ProjectContents;
  (* atom.project.replace, when the editor has it *)
  atom_project_replace : option (ProjectContents -> option JsError);
  (* handlers subscribed to the static emitter *)
  handlerFault : string -> RemoteConnection -> option JsError;
  (* RemoteConnectionConfigurationManager and lookup-prefer-ip-v6 *)
  getConnectionConfig : string -> Outcome (option RemoteConnectionConfiguration);
  lookupPreferIpv6 : string -> Outcome string
}.

(** ** The monad: world passing with exceptions *)

Definition M (A : Type) : Type := World -> Outcome A * World.

Definition ret {A} (a : A) : M A := fun w => (Returned a, w).
Definition throw {A} (e : JsError) : M A := fun w => (Thrown e, w).

Definition bind {A B} (m : M A) (k : A -> M B) : M B :=
  fun w => match m w with
           | (Returned a, w') => k a w'
           | (Thrown e, w') => (Thrown e, w')
           end.

Notation "'do' x <- m ; k" := (bind m (fun x => k))
  (at level 10, x name, m at level 100, k at level 200).
Notation "'run' m ; k" := (bind m (fun _ => k))
  (at level 10, m at level 100, k at level 200).

(** [try { m } catch (e) { h e }] *)
Definition try_catch {A} (m : M A) (h : JsError -> M A) : M A :=
  fun w => match m w with
           | (Returned a, w') => (Returned a, w')
           | (Thrown e, w') => h e w'
           end.

(** [await p] for a promise whose settlement the environment decides. *)
Definition await {A} (r : Outcome A) : M A := fun w => (r, w).

(** A promise nobody awaits: its effects happen, its rejection is lost. *)
Definition detached {A} (m : M A) : M unit :=
  fun w => (Returned tt, snd (m w)).

Definition tell (ev : Event) : M unit :=
  fun w => (Returned tt,
            mkWorld (servers w) (objects w) (nextOid w) (trace w ++ [ev])).

Definition set_servers (f : gmap string ServerConnection -> gmap string ServerConnection)
  : M unit :=
  fun w => (Returned tt, mkWorld (f (servers w)) (objects w) (nextOid w) (trace w)).

Definition set_objects (f : gmap nat ObjState -> gmap nat ObjState) : M unit :=
  fun w => (Returned tt, mkWorld (servers w) (f (objects w)) (nextOid w) (trace w)).

Definition when (b : bool) (m : M unit) : M unit := if b then m else ret tt.

(** The part of the trace that a run added. *)
Definition added (w w' : World) : list Event := drop (length (trace w)) (trace w').

Definition FILE_WATCHER_SERVICE := "FileWatcherService".
Definition FILE_SYSTEM_SERVICE := "FileSystemService".
Definition SOURCE_CONTROL_SERVICE := "SourceControlService".

(** ** The program

    Conventions of the embedding.  A function of the class becomes a
    computation in [M]; [await] of a call into a collaborator takes its
    settlement from [Externals].  JavaScript runs one task at a time, so a
    call is followed here from start to end without other tasks in between.
    The one place where the class starts several promises at once,
    [Promise.all] in [findOrCreate], is modelled in two passes: the
    synchronous prefix of every [_initialize], in index order, and then the
    settlements, in index order as well.  [this.close(...)] inside
    [_initialize] is not awaited: it runs to its end and its own failure is
    dropped.  A [ServerConnection] is referred to by the hostname under
    which [ServerConnection.getByHostname] finds it. *)

Section Program.

Variable ext : Externals.

(** *** ServerConnection *)

(** Modelled from the spec: [ServerConnection.getOrCreate] (spec 2 and 4.1
    step 1) returns the existing session of the host or establishes a new
    one, which can fail.  A new session has no attached connection. *)
Definition getOrCreate (config : RemoteConnectionConfiguration) : M string :=
  fun w =>
    match servers w !! host config with
    | Some _ => (run tell (EvSessionAcquire (host config)) ; ret (host config)) w
    | None =>
        match connect ext config with
        | Some e => (Thrown e, w)
        | None =>
            (run set_servers (insert (host config) (mkServer config [] false 0)) ;
             run tell (EvSessionAcquire (host config)) ;
             ret (host config)) w
        end
    end.

(** Modelled from the spec: [serverConnection.getConnections()], the
    attached connections (spec 2, "active-connection-count"). *)
Definition getConnections (sc : string) : M (list RemoteConnection) :=
  fun w => (Returned (match servers w !! sc with
                      | Some s => _connections s
                      | None => []
                      end), w).

(** Modelled from the spec: [serverConnection.close()]. *)
Definition sc_close (sc : string) : M unit :=
  run set_servers (alter (fun s => mkServer (sc_config s) (_connections s)
                                     (sc_alwaysShutdownIfLast s) (S (sc_closeCalls s))) sc) ;
  tell (EvSessionClose sc).

(** Modelled from the spec: [serverConnection.addConnection(connection)],
    "register(connection): add under its hostname's entry" (spec 4.3). *)
Definition addConnection (c : RemoteConnection) : M unit :=
  run set_servers (alter (fun s => mkServer (sc_config s) (_connections s ++ [c])
                                     (sc_alwaysShutdownIfLast s) (sc_closeCalls s))
                     (_connection c)) ;
  tell (EvAttach c).

(** [indexOf] and [splice]: take the first occurrence of the object off. *)
Fixpoint remove_first (c : RemoteConnection) (l : list RemoteConnection)
  : list RemoteConnection :=
  match l with
  | [] => []
  | x :: r => if Nat.eqb (oid x) (oid c) then r else x :: remove_first c r
  end.

(** Modelled from the spec: [serverConnection.removeConnection(connection,
    shutdownIfLast)]: "unregister(connection): remove; no-op if absent"
    (spec 4.3) and "closes the underlying session if its attachment count
    reaches zero and either shutdownIfLast or the session's own
    always-shutdown flag is set" (spec 4.5).  The call can raise. *)
Definition removeConnection (c : RemoteConnection) (shutdownIfLast : bool) : M unit :=
  run tell (EvDetach c shutdownIfLast) ;
  match detachFault ext c shutdownIfLast with
  | FaultBefore e => throw e
  | fault =>
      run set_servers (alter (fun s => mkServer (sc_config s) (remove_first c (_connections s))
                                         (sc_alwaysShutdownIfLast s) (sc_closeCalls s))
                         (_connection c)) ;
      do rest <- getConnections (_connection c) ;
      do always <- (fun w => (Returned (match servers w !! _connection c with
                                        | Some s => sc_alwaysShutdownIfLast s
                                        | None => false
                                        end), w)) ;
      run when (Nat.eqb (length rest) 0 && (shutdownIfLast || always))
            (sc_close (_connection c)) ;
      match fault with
      | FaultAfter e => throw e
      | _ => ret tt
      end
  end.

(** *** The static emitter and the logger *)

(** [RemoteConnection._emitter.emit(name, connection)]: the handlers run
    synchronously and one of them can throw. *)
Definition emit (name : string) (c : RemoteConnection) : M unit :=
  run tell (EvEmit name c) ;
  match handlerFault ext name c with
  | Some e => throw e
  | None => ret tt
  end.

Definition logger (lvl : LogLevel) (msg : string) : M unit := tell (EvLog lvl msg).

(** *** Helpers at the end of the file (lines 493-507) *)

Definition hasAtomProjectFormat (filepath : string) : bool :=
  let e := uri_extname ext filepath in
  String.eqb e ".json" || String.eqb e ".cson".

Definition parseProject (raw : string) : M ProjectContents :=
  try_catch
    (run tell (EvParse Toml raw) ; await (toml_parse ext raw))
    (fun err =>
       if String.eqb (err_name err) "SyntaxError"
       then run tell (EvParse Season raw) ; await (season_parse ext raw)
       else throw err).

(** *** Registry lookups (lines 462-474) *)

Definition getByHostname (hostname : string) (w : World) : list RemoteConnection :=
  match servers w !! hostname with
  | None => []
  | Some server => _connections server
  end.

Definition getPathForInitialWorkingDirectory (c : RemoteConnection) : string := _cwd c.

(** [path.startsWith(s)] *)
Definition startsWith (path s : string) : bool := String.prefix s path.

Definition getByHostnameAndPath (hostname path : string) (w : World)
  : option RemoteConnection :=
  head (List.filter
          (fun connection => startsWith path (getPathForInitialWorkingDirectory connection))
          (getByHostname hostname w)).

(** *** Instance methods *)

Definition getRemoteHostname (c : RemoteConnection) : string := _connection c.

Definition getUriOfRemotePath (c : RemoteConnection) (remotePath : string) : string :=
  "nuclide://" +:+ getRemoteHostname c +:+ remotePath.

Definition getPathOfUri (uri : string) : string := snd (uri_parse ext uri).

Definition getUriForInitialWorkingDirectory (c : RemoteConnection) : string :=
  getUriOfRemotePath c (getPathForInitialWorkingDirectory c).

(** The constructor (lines 145-158). *)
Definition new_RemoteConnection (connection cwd displayTitle : string)
  (promptReconnectOnFailure : bool) : M RemoteConnection :=
  fun w =>
    let c := mkConn (nextOid w) cwd connection displayTitle promptReconnectOnFailure in
    (Returned c,
     mkWorld (servers w) (<[nextOid w := mkObj None false [] false]> (objects w))
       (S (nextOid w)) (trace w)).

Definition _setHgRepositoryDescription (c : RemoteConnection)
  (d : option HgRepositoryDescription) : M unit :=
  set_objects (alter (fun o => mkObj d (_alwaysShutdownIfLast o) (_subscriptions o)
                                 (_disposed o)) (oid c)).

Definition setAlwaysShutdownIfLast (c : RemoteConnection) (b : bool) : M unit :=
  set_objects (alter (fun o => mkObj (_hgRepositoryDescription o) b (_subscriptions o)
                                 (_disposed o)) (oid c)).

(** [_watchRootProjectDirectory] (lines 324-390).  Looking the service up
    and subscribing are synchronous and can throw; what the callbacks do
    when the stream reports later never reaches the caller. *)
Definition _watchRootProjectDirectory (c : RemoteConnection) : M unit :=
  match watchFault ext c with
  | Some e => throw e
  | None =>
      run tell (EvWatch c) ;
      set_objects (alter (fun o => mkObj (_hgRepositoryDescription o) (_alwaysShutdownIfLast o)
                                     (_subscriptions o ++ [getUriForInitialWorkingDirectory c])
                                     (_disposed o)) (oid c))
  end.

(** [this._subscriptions.dispose()] *)
Definition dispose (c : RemoteConnection) : M unit :=
  run tell (EvDispose c) ;
  set_objects (alter (fun o => mkObj (_hgRepositoryDescription o) (_alwaysShutdownIfLast o)
                                 [] true) (oid c)).

(** [close] (lines 392-400). *)
Definition close (c : RemoteConnection) (shutdownIfLast : bool) : M unit :=
  run logger LInfo "Received close command!" ;
  run dispose c ;
  run removeConnection c shutdownIfLast ;
  emit "did-close" c.

(** [_initialize] (lines 306-322) in two halves.  Everything up to the
    [await] inside [_setHgRepoInfo] runs synchronously in the caller's turn:
    the connection is attached and the request is sent. *)
Definition _initialize_begin (c : RemoteConnection) : M unit :=
  run addConnection c ;
  tell (EvRpc (_connection c) SOURCE_CONTROL_SERVICE "getHgRepository"
          (getPathForInitialWorkingDirectory c)).

(** The rest runs when the request settles with [r].  [this.close(...)] in
    the handler is not awaited. *)
Definition _initialize_resume (c : RemoteConnection)
  (r : Outcome (option HgRepositoryDescription)) : M RemoteConnection :=
  let attemptShutdown := false in
  run try_catch
        (do d <- await r ;
         run _setHgRepositoryDescription c d ;
         run emit "did-add" c ;
         _watchRootProjectDirectory c)
        (fun e => run detached (close c attemptShutdown) ; throw e) ;
  ret c.

Definition _initialize (c : RemoteConnection) : M RemoteConnection :=
  run _initialize_begin c ;
  _initialize_resume c
    (getHgRepository ext (_connection c) (getPathForInitialWorkingDirectory c)).

(** *** findOrCreate (lines 68-142) *)

(** The body of the [try] block: either the early [return] of an existing
    connection, or the directories to open. *)
Definition findOrCreate_resolve (serverConnection cwd' : string)
  : M (RemoteConnection + list string) :=
  do realPath <-
    (run tell (EvRpc serverConnection FILE_SYSTEM_SERVICE "resolveRealPath" cwd') ;
     await (resolveRealPath ext serverConnection cwd')) ;
  (* realPath may actually be a project file. *)
  do contents <-
    (if hasAtomProjectFormat realPath
     then run tell (EvRpc serverConnection FILE_SYSTEM_SERVICE "readFile" realPath) ;
          await (match readFile ext serverConnection realPath with
                 | Returned s => Returned (Some s)
                 | Thrown _ => Returned None        (* .catch(() => null) *)
                 end)
     else ret None) ;
  match contents with
  | None =>
      do existingConnection <-
        (if negb (String.eqb realPath cwd') && uri_isRemote ext cwd'
         then fun w => (Returned (getByHostnameAndPath (uri_getHostname ext cwd') realPath w), w)
         else ret None) ;
      match existingConnection with
      | Some existing => ret (inl existing)
      | None => ret (inr [realPath])
      end
  | Some raw =>
      do projectContents <- parseProject raw ;
      let dirname := uri_dirname ext realPath in
      let directories :=
        match paths projectContents with
        | PathsArray projectPaths => map (fun path => uri_resolve ext dirname path) projectPaths
        | _ => [dirname]
        end in
      run match atom_project_replace ext with
          | Some replace =>
              let replaced :=
                mkProject (PathsArray directories) (Some realPath) (otherKeys projectContents) in
              run tell (EvProjectReplace replaced) ;
              match replace replaced with
              | Some e => throw e
              | None => ret tt
              end
          | None => ret tt
          end ;
      ret (inr directories)
  end.

(** The callback of [directories.map]: construct the connection for the
    directory at index [i] and start its [_initialize], which runs up to its
    first [await]. *)
Fixpoint construct_each (serverConnection displayTitle' : string)
  (promptReconnectOnFailure' : option bool) (i : nat) (directories : list string)
  : M (list RemoteConnection) :=
  match directories with
  | [] => ret []
  | dir :: rest =>
      do connection <-
        new_RemoteConnection serverConnection dir
          (if Nat.eqb i 0 then displayTitle' else "")
          (match promptReconnectOnFailure' with Some false => false | _ => true end) ;
      run _initialize_begin connection ;
      do others <- construct_each serverConnection displayTitle' promptReconnectOnFailure'
                     (S i) rest ;
      ret (connection :: others)
  end.

(** The pending initializations settle, here in index order; each runs to
    its end whatever happens to the others. *)
Fixpoint settle_each (pending : list RemoteConnection) (w : World)
  : list (Outcome RemoteConnection) * World :=
  match pending with
  | [] => ([], w)
  | c :: rest =>
      let '(o, w1) :=
        _initialize_resume c
          (getHgRepository ext (_connection c) (getPathForInitialWorkingDirectory c)) w in
      let '(os, w2) := settle_each rest w1 in
      (o :: os, w2)
  end.

(** [Promise.all]: all the values, or the first rejection. *)
Fixpoint Promise_all {A} (os : list (Outcome A)) : Outcome (list A) :=
  match os with
  | [] => Returned []
  | Thrown e :: _ => Thrown e
  | Returned a :: rest =>
      match Promise_all rest with
      | Returned l => Returned (a :: l)
      | Thrown e => Thrown e
      end
  end.

(** [findOrCreate].  The result is [connections[0]], which is [undefined]
    ([None]) when there is no directory. *)
Definition findOrCreate (config : RemoteConnectionConfiguration)
  : M (option RemoteConnection) :=
  do serverConnection <- getOrCreate config ;
  do resolved <-
    try_catch
      (findOrCreate_resolve serverConnection (cwd config))
      (fun err =>
         (* Don't leave server connections hanging *)
         do attached <- getConnections serverConnection ;
         run when (Nat.eqb (length attached) 0) (sc_close serverConnection) ;
         throw err) ;
  match resolved with
  | inl existingConnection => ret (Some existingConnection)
  | inr directories =>
      do pending <- construct_each serverConnection (displayTitle config)
                      (promptReconnectOnFailure config) 0 directories ;
      do connections <-
        (fun w => let '(os, w') := settle_each pending w in (Promise_all os, w')) ;
      ret (head connections)
  end.

(** *** Reconnection (lines 179-262) *)

(** [{...connectionConfig, cwd, displayTitle, promptReconnectOnFailure}] *)
Definition spread_saved (connectionConfig : RemoteConnectionConfiguration)
  (cwd' displayTitle' : string) (promptReconnectOnFailure' : bool)
  : RemoteConnectionConfiguration :=
  mkConfig (host connectionConfig) (port connectionConfig) (family connectionConfig)
    cwd' displayTitle'
    (certificateAuthorityCertificate connectionConfig) (clientCertificate connectionConfig)
    (clientKey connectionConfig) (Some promptReconnectOnFailure')
    (version connectionConfig).

(** [e.code === code] *)
Definition code_is (e : JsError) (code : string) : bool :=
  match err_code e with
  | Some c => String.eqb c code
  | None => false
  end.

(** [e.sshHandshakeErrorType = 'DIRECTORY_NOT_FOUND'] *)
Definition tag_directory_not_found (e : JsError) : JsError :=
  mkError (err_name e) (err_code e) (err_message e) (Some "DIRECTORY_NOT_FOUND").

Definition _createConnectionBySavedConfig (host' cwd' displayTitle' : string)
  (promptReconnectOnFailure' : bool) : M (option RemoteConnection) :=
  do connectionConfig <-
    (run tell (EvSavedConfig host') ; await (getConnectionConfig ext host')) ;
  match connectionConfig with
  | None => ret None
  | Some saved =>
      try_catch
        (let config := spread_saved saved cwd' displayTitle' promptReconnectOnFailure' in
         findOrCreate config)
        (fun e =>
           (* Returning null from this method signals that we should
              restart the handshake process with same config.
              But there are some errors for which we don't want to do that
              (like if the connection fails because the directory doesn't exist). *)
           if code_is e "ENOENT"
           then throw (tag_directory_not_found e)
           else
             let log := if String.eqb (err_name e) "VersionMismatchError"
                        then LWarn else LError in
             run logger log ("Failed to reuse connectionConfiguration for " +:+ host') ;
             ret None)
  end.

Definition reconnect (host' cwd' displayTitle' : string)
  (promptReconnectOnFailure' : bool) : M (option RemoteConnection) :=
  run logger LInfo "Attempting to reconnect" ;
  do existing <-
    (if negb (hasAtomProjectFormat cwd')
     then fun w => (Returned (getByHostnameAndPath host' cwd' w), w)
     else ret None) ;
  match existing with
  | Some connection => ret (Some connection)
  | None =>
      do connection <-
        _createConnectionBySavedConfig host' cwd' displayTitle' promptReconnectOnFailure' ;
      match connection with
      | Some c => ret (Some c)
      | None =>
          try_catch
            (* Connection configs are also stored by IP address *)
            (do address <- (run tell (EvDns host') ; await (lookupPreferIpv6 ext host')) ;
             _createConnectionBySavedConfig address cwd' displayTitle'
               promptReconnectOnFailure')
            (fun err => (* It's OK if the backup IP check fails. *) ret None)
      end
  end.

(** [getForUri] (lines 447-453). *)
Definition getForUri (uri : string) (w : World) : option RemoteConnection :=
  match uri_parse ext uri with
  | (None, _) => None
  | (Some hostname, path) => getByHostnameAndPath hostname path w
  end.

End Program.

(** ** Observations on worlds *)

Definition closeCalls (h : string) (w : World) : nat :=
  match servers w !! h with
  | Some s => sc_closeCalls s
  | None => 0
  end.

Definition is_emit (name : string) (c : RemoteConnection) (ev : Event) : bool :=
  match ev with
  | EvEmit n c' => String.eqb n name && Nat.eqb (oid c') (oid c)
  | _ => false
  end.

Definition count_emits (name : string) (c : RemoteConnection) (l : list Event) : nat :=
  length (List.filter (is_emit name c) l).

(** The first step of [_initialize] after the attachment that fails, if
    any: the source-control lookup, a 'did-add' handler, the watch. *)
Definition first_failure (ext : Externals) (c : RemoteConnection) : option JsError :=
  match getHgRepository ext (_connection c) (getPathForInitialWorkingDirectory c) with
  | Thrown e => Some e
  | Returned _ =>
      match handlerFault ext "did-add" c with
      | Some e => Some e
      | None => watchFault ext c
      end
  end.

(** What [removeConnection] does to the world when it gets as far as the
    session. *)
Definition detached_world (c : RemoteConnection) (shutdownIfLast : bool) (w : World)
  : World :=
  snd ((run set_servers
              (alter (fun s => mkServer (sc_config s) (remove_first c (_connections s))
                                 (sc_alwaysShutdownIfLast s) (sc_closeCalls s))
                 (_connection c)) ;
        do rest <- getConnections (_connection c) ;
        do always <- (fun w => (Returned (match servers w !! _connection c with
                                          | Some s => sc_alwaysShutdownIfLast s
                                          | None => false
                                          end), w)) ;
        when (Nat.eqb (length rest) 0 && (shutdownIfLast || always))
          (sc_close (_connection c))) w).

(** The world when [close] is about to detach: the call is logged, the
    subscriptions are disposed, the detachment is under way. *)
Definition closing_world (c : RemoteConnection) (shutdownIfLast : bool) (w : World)
  : World :=
  mkWorld (servers w)
    (alter (fun o => mkObj (_hgRepositoryDescription o) (_alwaysShutdownIfLast o) [] true)
       (oid c) (objects w))
    (nextOid w)
    (trace w ++ [EvLog LInfo "Received close command!"; EvDispose c;
                 EvDetach c shutdownIfLast]).

(** ** Three sentences of the specification, read literally

    Each is a property of one call; the statements below show where the
    program departs from them. *)


(** "close on a connection always removes it from the registry and emits
    exactly one removed notification, even when session detachment raises
    an error (error still surfaces to the caller of close)". *)
Definition close_always_notifies (ext : Externals) (c : RemoteConnection)
  (shutdownIfLast : bool) (w : World) : Prop :=
  let '(r, w') := close ext c shutdownIfLast w in
  (c ∉ getByHostname (_connection c) w')
  /\ count_emits "did-close" c (added w w') = 1
  /\ forall e,
       detachFault ext c shutdownIfLast = FaultBefore e
       \/ detachFault ext c shutdownIfLast = FaultAfter e ->
       r = Thrown e.

(** "If the descriptor path differs from the originally requested path and
    a remote connection already exists for (hostname, realPath), return
    that connection immediately". *)
Definition reuse_whenever_real_path_is_covered (ext : Externals)
  (config : RemoteConnectionConfiguration) (w : World) : Prop :=
  forall realPath c,
    fst (getOrCreate ext config w) = Returned (host config) ->
    resolveRealPath ext (host config) (cwd config) = Returned realPath ->
    realPath <> cwd config ->
    getByHostnameAndPath (uri_getHostname ext (cwd config)) realPath w = Some c ->
    let '(r, w') := findOrCreate ext config w in
    r = Returned (Some c) /\ nextOid w' = nextOid w.

(** ** A concrete environment

    One remote host "dev" whose saved configuration is stored under its
    address only.  "/proj/app.json" is a project file listing "a" and "b",
    "/gone" does not exist, the repository lookup fails for "/work", and
    the session refuses to let go of connections rooted at "/faulty". *)
Module Scenario.

Definition ENOENT := mkError "Error" (Some "ENOENT") "no such file or directory" None.
Definition SyntaxErr := mkError "SyntaxError" None "unexpected token" None.
Definition TypeErr := mkError "TypeError" None "not a string" None.
Definition HgFailure := mkError "Error" None "hg unavailable" None.
Definition DetachFailure := mkError "Error" None "socket closed" None.

Definition savedDev : RemoteConnectionConfiguration :=
  mkConfig "10.0.0.1" 443 None "/" "" None None None None None.

Definition env (toml : string -> Outcome ProjectContents) : Externals := {|
  uri_extname := fun p =>
    if String.eqb p "/proj/app.json" then ".json"
    else if String.eqb p "nuclide://dev/link.json" then ".json" else "";
  uri_dirname := fun p => if String.eqb p "/proj/app.json" then "/proj" else "/";
  uri_resolve := fun d p => d +:+ "/" +:+ p;
  uri_isRemote := fun p => String.prefix "nuclide://" p;
  uri_getHostname := fun p => "dev";
  uri_parse := fun u => (None, u);
  connect := fun _ => None;
  detachFault := fun c _ =>
    if String.eqb (_cwd c) "/faulty" then FaultAfter DetachFailure else NoFault;
  resolveRealPath := fun _ p =>
    if String.eqb p "nuclide://dev/link.json" then Returned "/proj/app.json"
    else if String.eqb p "nuclide://dev/lnk" then Returned "/proj/sub"
    else if String.eqb p "/gone" then Thrown ENOENT
    else Returned p;
  readFile := fun _ p =>
    if String.eqb p "/proj/app.json" then Returned "paths: ['a', 'b']" else Thrown ENOENT;
  getHgRepository := fun _ p =>
    if String.eqb p "/work" then Thrown HgFailure else Returned None;
  watchFault := fun _ => None;
  toml_parse := toml;
  season_parse := fun _ => Returned (mkProject (PathsArray ["a"; "b"]) None "");
  atom_project_replace := None;
  handlerFault := fun _ _ => None;
  getConnectionConfig := fun h =>
    if String.eqb h "10.0.0.1" then Returned (Some savedDev) else Returned None;
  lookupPreferIpv6 := fun h => Returned "10.0.0.1"
|}.

(** The project file is not TOML: the primary parser reports a syntax error. *)
Definition ext0 : Externals := env (fun _ => Thrown SyntaxErr).

(** The primary parser fails for another reason. *)
Definition ext1 : Externals := env (fun _ => Thrown TypeErr).

Definition empty_world : World := mkWorld ∅ ∅ 0 [].

Definition cfg (dir : string) : RemoteConnectionConfiguration :=
  mkConfig "dev" 443 None dir "App" None None None None None.

Definition proj : RemoteConnection := mkConn 0 "/proj" "dev" "App" true.
Definition work : RemoteConnection := mkConn 1 "/work" "dev" "" true.
Definition faulty : RemoteConnection := mkConn 0 "/faulty" "dev" "" true.

(** "dev" has one session with a single connection. *)
Definition world_with (c : RemoteConnection) : World :=
  mkWorld {[ "dev" := mkServer (cfg (_cwd c)) [c] false 0 ]}
    {[ 0 := mkObj None false [] false ]} 1 [].

End Scenario.

(** ** More of the class *)

(** [isOnlyConnection] (lines 480-482). *)
Definition isOnlyConnection (c : RemoteConnection) (w : World) : bool :=
  Nat.eqb (length (getByHostname (_connection c) w)) 1.

(** [getHgRepositoryDescription] (lines 298-300) and [alwaysShutdownIfLast]
    (lines 488-490): the current value of the field of the object. *)
Definition getHgRepositoryDescription (c : RemoteConnection) (w : World)
  : option HgRepositoryDescription :=
  match objects w !! oid c with
  | Some o => _hgRepositoryDescription o
  | None => None
  end.

Definition alwaysShutdownIfLast (c : RemoteConnection) (w : World) : bool :=
  match objects w !! oid c with
  | Some o => _alwaysShutdownIfLast o
  | None => false
  end.

(** What [this._subscriptions] holds, and whether it has been disposed. *)
Definition subscriptions_of (c : RemoteConnection) (w : World) : list string * bool :=
  match objects w !! oid c with
  | Some o => (_subscriptions o, _disposed o)
  | None => ([], false)
  end.

(** Whether the steps of [_initialize] after the attachment all succeed. *)
Definition initializes (ext : Externals) (c : RemoteConnection) : bool :=
  match first_failure ext c with
  | None => true
  | Some _ => false
  end.

(** [_createInsecureConnectionForTesting] (lines 160-171). *)
Definition _createInsecureConnectionForTesting (ext : Externals) (cwd' : string)
  (port' : nat) : M (option RemoteConnection) :=
  let config := mkConfig "localhost" port' None cwd' "" None None None None None in
  findOrCreate ext config.

(** *** The error callback of the watch (lines 344-383) *)

(** [detail]: [error.message || error]. *)
Inductive Detail :=
| DetailMessage (s : string)
| DetailError (e : JsError).

(** A call of [atom.notifications]. *)
Inductive Notice :=
| NoticeError (msg : string)
| NoticeInfo (msg : string)
| NoticeWarning (msg : string) (dismissable : bool) (detail : option Detail).

(** The two calls of the FileSystemService that only the callback makes. *)
Record WatchServices := mkWatchServices {
  isNfs : string -> string -> Outcome bool;
  findNearestAncestorNamed : string -> string -> string -> Outcome (option string)
}.

(** The world together with what the user has been shown. *)
Record Editor := mkEditor {
  ed_world : World;
  ed_notices : list Notice
}.

Definition nfs_warning (rootDirectoryPath : string) : string :=
  "This project directory: `" +:+ rootDirectoryPath +:+ "` is on <b>`NFS`</b> filesystem. "
  +:+ "Nuclide works best with local (non-NFS) root directory."
  +:+ "e.g. `/data/users/$USER`"
  +:+ "features such as synced remote file editing, file search, "
  +:+ "and Mercurial-related updates will not work.<br/>".

Definition watchman_warning (rootDirectoryPath : string) : string :=
  "You just connected to a remote project "
  +:+ "`" +:+ rootDirectoryPath +:+ "` without Watchman support, which means that "
  +:+ "crucial features such as synced remote file editing, file search, "
  +:+ "and Mercurial-related updates will not work.".

Definition watchman_workaround : string :=
  "<br/><br/>A possible workaround is to create an empty `.watchmanconfig` file "
  +:+ "in the remote folder, which will enable Watchman if you have it installed.".

Definition onWatchError (fs : WatchServices) (c : RemoteConnection) (error : JsError)
  (ed : Editor) : Outcome unit * Editor :=
  let rootDirectoryUri := getUriForInitialWorkingDirectory c in
  let rootDirectoryPath := getPathForInitialWorkingDirectory c in
  let w1 := snd (tell (EvRpc (_connection c) FILE_SYSTEM_SERVICE "isNfs" rootDirectoryUri)
                   (ed_world ed)) in
  match isNfs fs (_connection c) rootDirectoryUri with
  | Thrown e => (Thrown e, mkEditor w1 (ed_notices ed))
  | Returned true =>
      let warningMessageToUser := "" +:+ nfs_warning rootDirectoryPath in
      (Returned tt,
       mkEditor w1 (ed_notices ed ++ [NoticeWarning warningMessageToUser true None]))
  | Returned false =>
      let w2 := snd (tell (EvRpc (_connection c) FILE_SYSTEM_SERVICE
                             "findNearestAncestorNamed" rootDirectoryUri) w1) in
      let watchmanConfig :=
        match findNearestAncestorNamed fs (_connection c) ".watchmanconfig"
                rootDirectoryUri with
        | Returned found => found
        | Thrown _ => None                      (* .catch(() => null) *)
        end in
      let warningMessageToUser :=
        ("" +:+ watchman_warning rootDirectoryPath)
        +:+ match watchmanConfig with
            | None => watchman_workaround
            | Some _ => ""
            end in
      let detail :=
        if String.eqb (err_message error) "" then DetailError error
        else DetailMessage (err_message error) in
      let w3 := snd (logger LError "Watchman failed to start - watcher features disabled!"
                       w2) in
      (Returned tt,
       mkEditor w3 (ed_notices ed ++ [NoticeWarning warningMessageToUser true (Some detail)]))
  end.

(** The last [n] characters of a string, last one first. *)
Definition ending (n : nat) (s : string) : list Ascii.ascii :=
  take n (rev (list_ascii_of_string s)).

(** ** The contributors' package (sample-nuclide-contributors/lib/main.js) *)

Module Contributors.

(** A loaded package, as far as the code looks at it. *)
Record Package := mkPackage {
  pack_name : string;
  pack_path : string
}.

(** Calls into the editor, the console and electron, in order. *)
Inductive Call :=
| Notify (n : Notice)
| ConsoleLog (text : string)
| ConsoleLogError (e : JsError)
| ConsoleLogAdded (nuclidePath : string)
| IpcSend (channel : string) (arg : option string)
| SaveState
| LoadState
| DeactivatePackage (name : string)
| UnloadPackage (name : string)
| LoadPackage (path : string)
| ActivateResources (p : Package)
| ActivateNow (p : Package).

(** The mutable objects of the process that the code writes to. *)
Record Runtime := mkRuntime {
  globalPaths : list string;                        (* Module.globalPaths *)
  require_cache : gmap string string;               (* require.cache *)
  snapshot_cache : option (gmap string string);     (* global.snapshotResult.customRequire.cache *)
  calls : list Call
}.

(** What the editor, node and electron answer. *)
Record Api := mkApi {
  getActivePaneItem : option (option string);       (* the item, by its getPath() *)
  ipcRenderer : bool;                               (* require('electron').ipcRenderer != null *)
  saveState : option JsError;
  loadState : Outcome string;
  getLoadedPackage : string -> option Package;
  deactivatePackage : string -> option JsError;
  loadPackage : string -> option Package;
  path_join : string -> string -> string;
  path_sep : string;
  invariant_violation : JsError                     (* what a failed [invariant] throws *)
}.

Definition call (c : Call) (rt : Runtime) : Runtime :=
  mkRuntime (globalPaths rt) (require_cache rt) (snapshot_cache rt) (calls rt ++ [c]).

(** [Array.prototype.indexOf] *)
Fixpoint array_indexOf (l : list string) (x : string) : Z :=
  match l with
  | [] => (-1)%Z
  | y :: r =>
      if String.eqb y x then 0%Z
      else match array_indexOf r x with
           | Zneg _ => (-1)%Z
           | i => (i + 1)%Z
           end
  end.

(** [String.prototype.indexOf] *)
Definition string_indexOf (p s : string) : Z :=
  match String.index 0 s p with
  | Some n => Z.of_nat n
  | None => (-1)%Z
  end.

(** 'nuclide-contributors:run-current-spec' (lines 37-47). *)
Definition run_current_spec (api : Api) (rt : Runtime) : Outcome unit * Runtime :=
  match getActivePaneItem api with
  | None => (Returned tt, call (Notify (NoticeError "No active editor!")) rt)
  | Some activePath =>
      if ipcRenderer api
      then (Returned tt, call (IpcSend "run-package-specs" activePath) rt)
      else (Thrown (invariant_violation api), rt)
  end.

(** 'nuclide-contributors:save-atom-state' (lines 56-70). *)
Definition save_atom_state (api : Api) (rt : Runtime) : Outcome unit * Runtime :=
  let failed err rt :=
    (Returned tt,
     call (Notify (NoticeError ("Failed to save state: " +:+ err_message err)))
       (call (ConsoleLogError err) rt)) in
  match saveState api with
  | Some err => failed err (call SaveState rt)
  | None =>
      match loadState api with
      | Thrown err => failed err (call LoadState (call SaveState rt))
      | Returned state =>
          (Returned tt,
           call (Notify (NoticeInfo "State saved!"))
             (call (ConsoleLog state) (call LoadState (call SaveState rt))))
      end
  end.

(** The callback of [filter] at lines 88-96. *)
Definition add_global_path (nuclidePath : string) (rt : Runtime) : Runtime :=
  if Z.eqb (array_indexOf (globalPaths rt) nuclidePath) (-1)
  then call (ConsoleLogAdded nuclidePath)
         (mkRuntime (globalPaths rt ++ [nuclidePath]) (require_cache rt)
            (snapshot_cache rt) (calls rt))
  else rt.

(** 'nuclide-contributors:add-nuclide-modules-to-global-paths' (lines 79-97). *)
Definition add_nuclide_modules_to_global_paths (api : Api) (rt : Runtime) : Runtime :=
  match getLoadedPackage api "nuclide" with
  | None => call (Notify (NoticeError "Nuclide is not loaded.")) rt
  | Some nuclidePack =>
      fold_left (fun rt nuclidePath => add_global_path nuclidePath rt)
        [path_join api (pack_path nuclidePack) "node_modules";
         path_join api (pack_path nuclidePack) "pkg"]
        rt
  end.

(** [_reloader] (lines 102-132). *)
Definition _reloader (api : Api) (name : string) (rt : Runtime)
  : Outcome unit * Runtime :=
  match getLoadedPackage api name with
  | None =>
      (Returned tt,
       call (Notify (NoticeWarning (name +:+ " package is not loaded") false None)) rt)
  | Some pack =>
      let rt1 := call (DeactivatePackage name) rt in
      match deactivatePackage api name with
      | Some e => (Thrown e, rt1)
      | None =>
          let rt2 := call (UnloadPackage name) rt1 in
          (* remove cache *)
          let dir := pack_path pack +:+ path_sep api in
          let kept :=
            filter (fun kv => string_indexOf (fst kv) dir <> 0%Z) (require_cache rt2) in
          (* For Atom 1.17+ *)
          let snapshot :=
            match snapshot_cache rt2 with
            | Some cache =>
                Some (filter (fun kv => string_indexOf (fst kv) dir = (-1)%Z) cache)
            | None => None
            end in
          let rt3 := call (LoadPackage (pack_path pack))
                       (mkRuntime (globalPaths rt2) kept snapshot (calls rt2)) in
          match loadPackage api (pack_path pack) with
          | None => (Thrown (invariant_violation api), rt3)
          | Some pkg =>
              (Returned tt, call (ActivateNow pkg) (call (ActivateResources pkg) rt3))
          end
      end
  end.

End Contributors.

(** ** More concrete environments *)

Module Scenario2.

(** The configuration store knows "10.0.0.1" only, as in [Scenario]. *)
Definition home : RemoteConnection := mkConn 0 "" "dev" "" true.
Definition other : RemoteConnection := mkConn 1 "/other" "dev" "" true.

Definition WatchFailure := mkError "Error" None "watchman not found" None.

(** No NFS, and no .watchmanconfig above the root. *)
Definition plain_fs : WatchServices :=
  mkWatchServices (fun _ _ => Returned false) (fun _ _ _ => Returned None).

(** [e] with another SourceControlService. *)
Definition with_hg (e : Externals)
  (hg : string -> string -> Outcome (option HgRepositoryDescription)) : Externals :=
  mkExt (uri_extname e) (uri_dirname e) (uri_resolve e) (uri_isRemote e)
    (uri_getHostname e) (uri_parse e) (connect e) (detachFault e) (resolveRealPath e)
    (readFile e) hg (watchFault e) (toml_parse e) (season_parse e)
    (atom_project_replace e) (handlerFault e) (getConnectionConfig e) (lookupPreferIpv6 e).

(** [e] with an editor that can replace its project. *)
Definition with_replace (e : Externals) (replace : ProjectContents -> option JsError)
  : Externals :=
  mkExt (uri_extname e) (uri_dirname e) (uri_resolve e) (uri_isRemote e)
    (uri_getHostname e) (uri_parse e) (connect e) (detachFault e) (resolveRealPath e)
    (readFile e) (getHgRepository e) (watchFault e) (toml_parse e) (season_parse e)
    (Some replace) (handlerFault e) (getConnectionConfig e) (lookupPreferIpv6 e).

(** [e] with another secondary parser. *)
Definition with_season (e : Externals) (season : string -> Outcome ProjectContents)
  : Externals :=
  mkExt (uri_extname e) (uri_dirname e) (uri_resolve e) (uri_isRemote e)
    (uri_getHostname e) (uri_parse e) (connect e) (detachFault e) (resolveRealPath e)
    (readFile e) (getHgRepository e) (watchFault e) (toml_parse e) season
    (atom_project_replace e) (handlerFault e) (getConnectionConfig e) (lookupPreferIpv6 e).

(** The repository lookup fails for "/proj/b" only. *)
Definition ext_b_fails : Externals :=
  with_hg Scenario.ext0
    (fun _ p => if String.eqb p "/proj/b" then Thrown Scenario.HgFailure
                else Returned (Some "hg")).

(** The repository of every directory is described as "hg". *)
Definition ext_hg : Externals :=
  with_hg Scenario.ext0 (fun _ _ => Returned (Some "hg")).

(** The editor replaces its project without complaint. *)
Definition ext_replace : Externals := with_replace Scenario.ext0 (fun _ => None).

(** The project file lists no directory. *)
Definition ext_empty : Externals :=
  with_season Scenario.ext0 (fun _ => Returned (mkProject (PathsArray []) None "")).

(** "dev" has one session with two connections, "/proj" before "/work". *)
Definition two_world : World :=
  mkWorld {[ "dev" := mkServer (Scenario.cfg "/proj") [Scenario.proj; Scenario.work] false 0 ]}
    {[ 0 := mkObj None false [] false; 1 := mkObj None false [] false ]} 2 [].

Definition editor0 : Editor := mkEditor (Scenario.world_with Scenario.proj) [].

Definition nuclide : Contributors.Package := Contributors.mkPackage "nuclide" "/opt/nuclide".

Definition api0 : Contributors.Api := {|
  Contributors.getActivePaneItem := None;
  Contributors.ipcRenderer := true;
  Contributors.saveState := None;
  Contributors.loadState := Returned "{}";
  Contributors.getLoadedPackage := fun n =>
    if String.eqb n "nuclide" then Some nuclide else None;
  Contributors.deactivatePackage := fun _ => None;
  Contributors.loadPackage := fun p => if String.eqb p "/opt/nuclide" then Some nuclide else None;
  Contributors.path_join := fun a b => a +:+ "/" +:+ b;
  Contributors.path_sep := "/";
  Contributors.invariant_violation := mkError "AssertionError" None "" None
|}.

(** The same editor, where the package refuses to deactivate. *)
Definition Busy := mkError "Error" None "package is busy" None.

Definition api_busy : Contributors.Api := {|
  Contributors.getActivePaneItem := None;
  Contributors.ipcRenderer := true;
  Contributors.saveState := None;
  Contributors.loadState := Returned "{}";
  Contributors.getLoadedPackage := fun n =>
    if String.eqb n "nuclide" then Some nuclide else None;
  Contributors.deactivatePackage := fun _ => Some Busy;
  Contributors.loadPackage := fun p => if String.eqb p "/opt/nuclide" then Some nuclide else None;
  Contributors.path_join := fun a b => a +:+ "/" +:+ b;
  Contributors.path_sep := "/";
  Contributors.invariant_violation := mkError "AssertionError" None "" None
|}.

Definition runtime0 : Contributors.Runtime :=
  Contributors.mkRuntime ["/usr/lib/node"]
    {[ "/opt/nuclide/lib/main.js" := "main"; "/opt/other/index.js" := "other" ]}
    (Some {[ "../opt/nuclide/pkg/a.js" := "a" ]})
    [].

End Scenario2.

(** ** Basic facts *)

Lemma added_app (w w' : World) (l : list Event) :
  trace w' = trace w ++ l -> added w w' = l.
Proof. unfold added. intros ->. apply drop_app_length. Qed.

Lemma startsWith_iff (path s : string) :
  startsWith path s = true <-> exists rest, path = s +:+ rest.
Proof.
  unfold startsWith. revert s.
  induction path as [|b path IH]; intros [|a s]; simpl.
  - split; [exists ""; reflexivity | reflexivity].
  - split; [discriminate | intros [rest H]; discriminate].
  - split; [eexists; reflexivity | reflexivity].
  - destruct (Ascii.ascii_dec a b) as [->|Hne].
    + rewrite IH. split; intros [rest H]; exists rest.
      * now rewrite H.
      * now injection H.
    + split; [discriminate | intros [rest H]; injection H; congruence].
Qed.

Lemma head_filter_first {A} (f : A -> bool) (l : list A) :
  match head (List.filter f l) with
  | Some x => exists l1 l2, l = l1 ++ x :: l2 /\ f x = true /\ Forall (fun y => f y = false) l1
  | None => Forall (fun y => f y = false) l
  end.
Proof.
  induction l as [|a l IH]; simpl.
  - constructor.
  - destruct (f a) eqn:Ha; simpl.
    + exists [], l. repeat split; auto.
    + destruct (head (List.filter f l)) as [x|].
      * destruct IH as (l1 & l2 & -> & Hx & Hl1).
        exists (a :: l1), l2. repeat split; auto.
      * constructor; auto.
Qed.

(** ** Registry lookup *)

(** C7. [getByHostnameAndPath H P] returns the first connection registered
    for [H], in registration order, whose cwd is a prefix of [P] as a string
    ([P] is the cwd followed by any characters at all, with no condition on
    a path separator), and nothing when no registered connection of [H] has
    such a cwd. *)
Theorem getByHostnameAndPath_first_prefix (H P : string) (w : World) :
  match getByHostnameAndPath H P w with
  | Some c =>
      exists before after,
        getByHostname H w = before ++ c :: after
        /\ (exists rest, P = _cwd c +:+ rest)
        /\ forall c', c' ∈ before -> ~ exists rest, P = _cwd c' +:+ rest
  | None =>
      forall c, c ∈ getByHostname H w -> ~ exists rest, P = _cwd c +:+ rest
  end.
Proof.
  unfold getByHostnameAndPath.
  pose proof (head_filter_first
                (fun c => startsWith P (getPathForInitialWorkingDirectory c))
                (getByHostname H w)) as Hf.
  destruct (head _) as [c|].
  - destruct Hf as (l1 & l2 & Heq & Hc & Hl1).
    exists l1, l2. split; [exact Heq|]. split.
    + now apply startsWith_iff.
    + intros c' Hin Hp. rewrite Forall_forall in Hl1.
      apply startsWith_iff in Hp. specialize (Hl1 c' Hin).
      unfold getPathForInitialWorkingDirectory in Hl1. congruence.
  - intros c Hin Hp. rewrite Forall_forall in Hf.
    apply startsWith_iff in Hp. specialize (Hf c Hin).
    unfold getPathForInitialWorkingDirectory in Hf. congruence.
Qed.

(** The match is on characters, not on path segments: a connection rooted
    at "/proj" answers for the sibling directory "/project". *)
Example getByHostnameAndPath_sibling :
  getByHostnameAndPath "dev" "/project" (Scenario.world_with Scenario.proj)
  = Some Scenario.proj.
Proof. vm_compute. reflexivity. Qed.

(** ** Frame lemmas for the steps of [findOrCreate] *)

Ltac run_model :=
  repeat (simpl in *; unfold bind, try_catch, await, tell, ret, throw, when,
            set_servers, set_objects, detached, logger in *; simpl in *).

Lemma getOrCreate_cases (ext : Externals) (config : RemoteConnectionConfiguration)
  (w : World) :
  (exists e, getOrCreate ext config w = (Thrown e, w))
  \/ exists w1,
      getOrCreate ext config w = (Returned (host config), w1)
      /\ is_Some (servers w1 !! host config)
      /\ (forall h, getByHostname h w1 = getByHostname h w)
      /\ (forall h, closeCalls h w1 = closeCalls h w)
      /\ nextOid w1 = nextOid w
      /\ objects w1 = objects w
      /\ trace w1 = trace w ++ [EvSessionAcquire (host config)].
Proof.
  unfold getOrCreate.
  destruct (servers w !! host config) as [s|] eqn:Hs.
  - right. eexists. split; [reflexivity|]. run_model.
    rewrite Hs. repeat split; eauto.
  - destruct (connect ext config) as [e|].
    + left. eauto.
    + right. eexists. split; [reflexivity|]. run_model.
      rewrite lookup_insert_eq. repeat split; eauto.
      * intros h. unfold getByHostname. simpl.
        destruct (decide (host config = h)) as [<-|Hne].
        -- now rewrite lookup_insert_eq, Hs.
        -- now rewrite lookup_insert_ne.
      * intros h. unfold closeCalls. simpl.
        destruct (decide (host config = h)) as [<-|Hne].
        -- now rewrite lookup_insert_eq, Hs.
        -- now rewrite lookup_insert_ne.
Qed.

Lemma getOrCreate_returned (ext : Externals) (config : RemoteConnectionConfiguration)
  (w : World) (h : string) :
  fst (getOrCreate ext config w) = Returned h ->
  exists w1,
    getOrCreate ext config w = (Returned (host config), w1)
    /\ is_Some (servers w1 !! host config)
    /\ (forall h, getByHostname h w1 = getByHostname h w)
    /\ (forall h, closeCalls h w1 = closeCalls h w)
    /\ nextOid w1 = nextOid w
    /\ objects w1 = objects w
    /\ trace w1 = trace w ++ [EvSessionAcquire (host config)].
Proof.
  intros H. destruct (getOrCreate_cases ext config w) as [[e He]|Hw]; [|exact Hw].
  rewrite He in H. discriminate.
Qed.

Ltac no_attach :=
  intros; rewrite ?not_elem_of_app, ?not_elem_of_cons;
  repeat split; try discriminate; try apply not_elem_of_nil; auto.

Ltac frame_done :=
  repeat split; auto;
  eexists; (split; [rewrite <- ?app_assoc; simpl; reflexivity | no_attach]).

(** The outcome of [parseProject] does not depend on the world, and the
    world only gains trace entries. *)
Lemma parseProject_run (ext : Externals) (raw : string) (w : World) :
  parseProject ext raw w =
  (match toml_parse ext raw with
   | Returned v => Returned v
   | Thrown e => if String.eqb (err_name e) "SyntaxError"
                 then season_parse ext raw else Thrown e
   end,
   mkWorld (servers w) (objects w) (nextOid w)
     (trace w ++ EvParse Toml raw ::
        match toml_parse ext raw with
        | Returned _ => []
        | Thrown e => if String.eqb (err_name e) "SyntaxError"
                      then [EvParse Season raw] else []
        end)).
Proof.
  unfold parseProject. run_model.
  destruct (toml_parse ext raw) as [v|e]; simpl; [reflexivity|].
  destruct (String.eqb (err_name e) "SyntaxError"); simpl.
  - rewrite <- app_assoc. simpl. now destruct (season_parse ext raw).
  - reflexivity.
Qed.

(** The [try] block resolves paths and parses; it touches neither the
    sessions nor the objects. *)
Lemma findOrCreate_resolve_frame (ext : Externals) (sc dir : string) (w : World) :
  let '(_, w') := findOrCreate_resolve ext sc dir w in
  servers w' = servers w /\ objects w' = objects w /\ nextOid w' = nextOid w
  /\ exists l, trace w' = trace w ++ l /\ forall c, EvAttach c ∉ l.
Proof.
  unfold findOrCreate_resolve. unfold bind at 1. run_model.
  destruct (resolveRealPath ext sc dir) as [rp|e]; simpl; [|frame_done].
  destruct (hasAtomProjectFormat ext rp); simpl.
  - destruct (readFile ext sc rp) as [raw|e]; simpl.
    + rewrite parseProject_run. simpl.
      destruct (toml_parse ext raw) as [pc|e]; simpl.
      * destruct (atom_project_replace ext) as [replace|]; simpl;
          [destruct (replace _); simpl|]; frame_done.
      * destruct (String.eqb (err_name e) "SyntaxError"); simpl; [|frame_done].
        destruct (season_parse ext raw) as [pc|e']; simpl; [|frame_done].
        destruct (atom_project_replace ext) as [replace|]; simpl;
          [destruct (replace _); simpl|]; frame_done.
    + destruct (negb (String.eqb rp dir) && uri_isRemote ext dir); simpl;
        [destruct (getByHostnameAndPath _ _ _); simpl|]; frame_done.
  - destruct (negb (String.eqb rp dir) && uri_isRemote ext dir); simpl;
      [destruct (getByHostnameAndPath _ _ _); simpl|]; frame_done.
Qed.

(** ** The project parser *)

Lemma findOrCreate_descriptor_parse_failure (ext : Externals)
  (config : RemoteConnectionConfiguration) (w : World) (realPath raw : string)
  (e : JsError) :
  fst (getOrCreate ext config w) = Returned (host config) ->
  resolveRealPath ext (host config) (cwd config) = Returned realPath ->
  hasAtomProjectFormat ext realPath = true ->
  readFile ext (host config) realPath = Returned raw ->
  fst (parseProject ext raw w) = Thrown e ->
  fst (findOrCreate ext config w) = Thrown e.
Proof.
  intros Hacq Hrp Hfmt Hread Hparse.
  destruct (getOrCreate_returned _ _ _ _ Hacq) as (w1 & Hw1 & _).
  unfold findOrCreate. unfold bind at 1. rewrite Hw1.
  unfold bind at 1. unfold try_catch at 1. unfold findOrCreate_resolve.
  run_model. rewrite Hrp. simpl. rewrite Hfmt. simpl. rewrite Hread. simpl.
  rewrite parseProject_run in *. simpl in *. rewrite Hparse. simpl.
  now destruct (Nat.eqb _ 0).
Qed.

(** C9. [parseProject] applies the primary parser (toml) first; the
    secondary parser (season) is applied, to the same content, if and only
    if the primary one failed with an error named SyntaxError; a successful
    primary parse is the result, after a syntax error the result is that of
    the secondary parser, and any other error of the primary parser is
    raised and reaches the caller of [findOrCreate]. *)
Theorem parseProject_falls_back_on_syntax_error (ext : Externals) (raw : string)
  (w : World) (r : Outcome ProjectContents) (w' : World) :
  parseProject ext raw w = (r, w') ->
  (exists rest, added w w' = EvParse Toml raw :: rest)
  /\ (EvParse Season raw ∈ added w w'
      <-> exists e, toml_parse ext raw = Thrown e /\ err_name e = "SyntaxError")
  /\ (forall p raw', EvParse p raw' ∈ added w w' -> raw' = raw)
  /\ (forall v, toml_parse ext raw = Returned v -> r = Returned v)
  /\ (forall e, toml_parse ext raw = Thrown e -> err_name e = "SyntaxError" ->
        r = season_parse ext raw)
  /\ (forall e, toml_parse ext raw = Thrown e -> err_name e <> "SyntaxError" ->
        r = Thrown e
        /\ forall config w0 realPath,
             fst (getOrCreate ext config w0) = Returned (host config) ->
             resolveRealPath ext (host config) (cwd config) = Returned realPath ->
             hasAtomProjectFormat ext realPath = true ->
             readFile ext (host config) realPath = Returned raw ->
             fst (findOrCreate ext config w0) = Thrown e).
Proof.
  rewrite parseProject_run. intros [= <- <-].
  erewrite added_app by (simpl; reflexivity).
  split; [eexists; reflexivity|].
  destruct (toml_parse ext raw) as [v|e] eqn:Htoml.
  - split; [|split; [|split; [|split; [|]]]].
    + rewrite list_elem_of_singleton. split; [discriminate|].
      intros (e & He & _). discriminate.
    + intros p raw'. rewrite list_elem_of_singleton. now intros [= -> ->].
    + now intros v' [= ->].
    + discriminate.
    + discriminate.
  - destruct (String.eqb (err_name e) "SyntaxError") eqn:Hname.
    + apply String.eqb_eq in Hname.
      split; [|split; [|split; [|split; [|]]]].
      * split; [eauto|]. intros _. rewrite !elem_of_cons. auto.
      * intros p raw'. rewrite !elem_of_cons, elem_of_nil.
        intros [[= -> ->]|[[= -> ->]|[]]]; reflexivity.
      * discriminate.
      * now intros e' [= <-] _.
      * intros e' [= <-] Hne. contradiction.
    + apply String.eqb_neq in Hname.
      split; [|split; [|split; [|split; [|]]]].
      * rewrite list_elem_of_singleton. split; [discriminate|].
        intros (e' & [= <-] & Hn). contradiction.
      * intros p raw'. rewrite list_elem_of_singleton. now intros [= -> ->].
      * discriminate.
      * intros e' [= <-] Hn. contradiction.
      * intros e' [= <-] _. split; [reflexivity|].
        intros config w0 realPath Hacq Hrp Hfmt Hread.
        eapply findOrCreate_descriptor_parse_failure; eauto.
        rewrite parseProject_run. simpl. rewrite Htoml.
        apply String.eqb_neq in Hname. now rewrite Hname.
Qed.

(** In the concrete environment whose primary parser raises a TypeError,
    opening the project file fails with that very error. *)
Lemma parseProject_falls_back_on_syntax_error_witness :
  fst (findOrCreate Scenario.ext1 (Scenario.cfg "/proj/app.json") Scenario.empty_world)
  = Thrown Scenario.TypeErr.
Proof.
  pose proof (parseProject_falls_back_on_syntax_error Scenario.ext1
                "paths: ['a', 'b']" Scenario.empty_world _ _
                (surjective_pairing _)) as (_ & _ & _ & _ & _ & H).
  destruct (H Scenario.TypeErr eq_refl) as [_ Hprop].
  - discriminate.
  - apply (Hprop (Scenario.cfg "/proj/app.json") Scenario.empty_world "/proj/app.json");
      reflexivity.
Defined.

(** ** Cleanup of the session when [findOrCreate] fails *)

Lemma getByHostname_servers (h : string) (w w' : World) :
  servers w' = servers w -> getByHostname h w' = getByHostname h w.
Proof. unfold getByHostname. now intros ->. Qed.

Lemma closeCalls_servers (h : string) (w w' : World) :
  servers w' = servers w -> closeCalls h w' = closeCalls h w.
Proof. unfold closeCalls. now intros ->. Qed.

Lemma sc_close_run (sc : string) (w : World) :
  sc_close sc w =
  (Returned tt,
   mkWorld (alter (fun s => mkServer (sc_config s) (_connections s)
                              (sc_alwaysShutdownIfLast s) (S (sc_closeCalls s))) sc
              (servers w))
     (objects w) (nextOid w) (trace w ++ [EvSessionClose sc])).
Proof. reflexivity. Qed.

Lemma sc_close_attached (sc h : string) (w : World) :
  getByHostname h (snd (sc_close sc w)) = getByHostname h w.
Proof.
  rewrite sc_close_run. unfold getByHostname. simpl.
  destruct (decide (sc = h)) as [->|Hne].
  - rewrite lookup_alter_eq. now destruct (servers w !! h).
  - now rewrite lookup_alter_ne.
Qed.





(** ** close and _initialize *)

Lemma getByHostname_alter (f : ServerConnection -> ServerConnection) (h h' : string)
  (w w' : World) :
  servers w' = alter f h (servers w) ->
  getByHostname h' w' =
  if decide (h = h')
  then match servers w !! h with Some s => _connections (f s) | None => [] end
  else getByHostname h' w.
Proof.
  intros Hs. unfold getByHostname. rewrite Hs.
  destruct (decide (h = h')) as [<-|Hne].
  - rewrite lookup_alter_eq. now destruct (servers w !! h).
  - now rewrite lookup_alter_ne.
Qed.

Lemma remove_first_absent (c : RemoteConnection) (l : list RemoteConnection) :
  (forall c', c' ∈ l -> oid c' <> oid c) -> remove_first c l = l.
Proof.
  induction l as [|x l IH]; simpl; intros H; [reflexivity|].
  destruct (Nat.eqb (oid x) (oid c)) eqn:E.
  - apply Nat.eqb_eq in E. exfalso. apply (H x); [left | exact E].
  - f_equal. apply IH. intros c' Hin. apply H. now right.
Qed.

Lemma remove_first_snoc (c : RemoteConnection) (l : list RemoteConnection) :
  (forall c', c' ∈ l -> oid c' <> oid c) -> remove_first c (l ++ [c]) = l.
Proof.
  induction l as [|x l IH]; simpl; intros H.
  - now rewrite Nat.eqb_refl.
  - destruct (Nat.eqb (oid x) (oid c)) eqn:E.
    + apply Nat.eqb_eq in E. exfalso. apply (H x); [left | exact E].
    + f_equal. apply IH. intros c' Hin. apply H. now right.
Qed.

Lemma remove_first_gone (c : RemoteConnection) (l : list RemoteConnection) :
  NoDup (map oid l) -> forall c', c' ∈ remove_first c l -> oid c' <> oid c.
Proof.
  induction l as [|x l IH]; simpl; intros Hnd c' Hin.
  - now apply elem_of_nil in Hin.
  - apply NoDup_cons in Hnd as [Hx Hnd].
    destruct (Nat.eqb (oid x) (oid c)) eqn:E.
    + apply Nat.eqb_eq in E. intros Heq. apply Hx. rewrite E, <- Heq.
      apply list_elem_of_fmap. eauto.
    + apply elem_of_cons in Hin as [->|Hin]; [now apply Nat.eqb_neq | now apply IH].
Qed.

Lemma is_emit_self (name : string) (c : RemoteConnection) :
  is_emit name c (EvEmit name c) = true.
Proof. simpl. now rewrite String.eqb_refl, Nat.eqb_refl. Qed.

Lemma detached_world_registry (c : RemoteConnection) (b : bool) (w : World) :
  getByHostname (_connection c) (detached_world c b w)
  = remove_first c (getByHostname (_connection c) w)
  /\ objects (detached_world c b w) = objects w
  /\ nextOid (detached_world c b w) = nextOid w
  /\ (trace (detached_world c b w) = trace w
      \/ trace (detached_world c b w) = trace w ++ [EvSessionClose (_connection c)]).
Proof.
  unfold detached_world. run_model. unfold getConnections. simpl.
  set (cond := Nat.eqb _ 0 && _). destruct cond; simpl.
  - split; [|auto].
    unfold getByHostname. simpl. rewrite !lookup_alter_eq.
    now destruct (servers w !! _connection c).
  - split; [|auto].
    unfold getByHostname. simpl. rewrite !lookup_alter_eq.
    now destruct (servers w !! _connection c).
Qed.

(** [close], step by step. *)
Lemma close_run (ext : Externals) (c : RemoteConnection) (b : bool) (w : World) :
  close ext c b w =
  match detachFault ext c b with
  | FaultBefore e => (Thrown e, closing_world c b w)
  | FaultAfter e => (Thrown e, detached_world c b (closing_world c b w))
  | NoFault =>
      (match handlerFault ext "did-close" c with
       | Some e => Thrown e
       | None => Returned tt
       end,
       mkWorld (servers (detached_world c b (closing_world c b w)))
         (objects (detached_world c b (closing_world c b w)))
         (nextOid (detached_world c b (closing_world c b w)))
         (trace (detached_world c b (closing_world c b w)) ++ [EvEmit "did-close" c]))
  end.
Proof.
  unfold close, removeConnection, dispose, emit, detached_world, closing_world.
  run_model. unfold getConnections. simpl. rewrite <- !app_assoc. simpl.
  destruct (detachFault ext c b) as [|e|e]; simpl.
  - set (cond := Nat.eqb _ 0 && _). destruct cond; simpl;
      now destruct (handlerFault ext "did-close" c).
  - reflexivity.
  - set (cond := Nat.eqb _ 0 && _). now destruct cond.
Qed.

Lemma count_emits_app (name : string) (c : RemoteConnection) (l1 l2 : list Event) :
  count_emits name c (l1 ++ l2) = count_emits name c l1 + count_emits name c l2.
Proof. unfold count_emits. now rewrite List.filter_app, length_app. Qed.

(** C2, as the program has it.  [close] disposes the subscriptions and
    detaches.  When detaching succeeds the connection is taken off the
    registry and exactly one 'did-close' notification is emitted, as the
    last effect.  When detaching raises, the error reaches the caller of
    [close] and no 'did-close' notification is emitted. *)
Theorem close_notifies_after_detaching (ext : Externals) (c : RemoteConnection)
  (shutdownIfLast : bool) (w : World) (r : Outcome unit) (w' : World) :
  close ext c shutdownIfLast w = (r, w') ->
  (exists rest, added w w' = EvLog LInfo "Received close command!" :: EvDispose c
                             :: EvDetach c shutdownIfLast :: rest)
  /\ (detachFault ext c shutdownIfLast = NoFault ->
      getByHostname (_connection c) w'
      = remove_first c (getByHostname (_connection c) w)
      /\ (NoDup (map oid (getByHostname (_connection c) w)) ->
          forall c', c' ∈ getByHostname (_connection c) w' -> oid c' <> oid c)
      /\ count_emits "did-close" c (added w w') = 1
      /\ (exists before, added w w' = before ++ [EvEmit "did-close" c])
      /\ r = match handlerFault ext "did-close" c with
             | Some e => Thrown e
             | None => Returned tt
             end)
  /\ (forall e,
        detachFault ext c shutdownIfLast = FaultBefore e
        \/ detachFault ext c shutdownIfLast = FaultAfter e ->
        r = Thrown e /\ count_emits "did-close" c (added w w') = 0).
Proof.
  rewrite close_run.
  set (w1 := closing_world c shutdownIfLast w).
  destruct (detached_world_registry c shutdownIfLast w1) as (Hreg & _ & _ & Htr).
  change (getByHostname (_connection c) w1) with (getByHostname (_connection c) w) in Hreg.
  assert (Hadd : exists tail,
             trace (detached_world c shutdownIfLast w1)
             = trace w ++ [EvLog LInfo "Received close command!"; EvDispose c;
                           EvDetach c shutdownIfLast] ++ tail
             /\ count_emits "did-close" c tail = 0).
  { destruct Htr as [-> | ->]; simpl.
    - exists []. split; reflexivity.
    - exists [EvSessionClose (_connection c)]. rewrite <- app_assoc. split; reflexivity. }
  destruct Hadd as (tail & Htail & Hcount).
  destruct (detachFault ext c shutdownIfLast) as [|e|e] eqn:Hfault; intros [= <- <-].
  - erewrite added_app by (simpl; rewrite Htail, <- !app_assoc; simpl; reflexivity).
    split; [eexists; reflexivity|]. split; [|intros e [?|?]; discriminate].
    intros _. split; [exact Hreg|]. split.
    { intros Hnd c'. unfold getByHostname at 1. simpl.
      fold (getByHostname (_connection c) (detached_world c shutdownIfLast w1)).
      rewrite Hreg. now apply remove_first_gone. }
    split.
    { change (?a :: ?b :: ?d :: tail ++ ?l) with ([a; b; d] ++ tail ++ l).
      rewrite !count_emits_app, Hcount. unfold count_emits. simpl.
      now rewrite Nat.eqb_refl. }
    split; [|reflexivity].
    exists ([EvLog LInfo "Received close command!"; EvDispose c;
             EvDetach c shutdownIfLast] ++ tail).
    now rewrite <- app_assoc.
  - erewrite added_app by (simpl; reflexivity).
    split; [eexists; reflexivity|]. split; [discriminate|].
    intros e' [[= <-]|[=]]. split; reflexivity.
  - erewrite added_app by (rewrite Htail; simpl; reflexivity).
    split; [eexists; reflexivity|]. split; [discriminate|].
    intros e' [[=]|[= <-]]. split; [reflexivity|].
    change (?a :: ?b :: ?d :: tail) with ([a; b; d] ++ tail).
    now rewrite count_emits_app, Hcount.
Qed.

(** A connection whose session accepts to let it go is counted once. *)
Lemma close_notifies_after_detaching_witness :
  count_emits "did-close" Scenario.proj
    (added (Scenario.world_with Scenario.proj)
       (snd (close Scenario.ext0 Scenario.proj true (Scenario.world_with Scenario.proj))))
  = 1.
Proof.
  destruct (close_notifies_after_detaching Scenario.ext0 Scenario.proj true
              (Scenario.world_with Scenario.proj) _ _ (surjective_pairing _))
    as (_ & H & _).
  destruct H as (_ & _ & Hcount & _); [reflexivity | exact Hcount].
Defined.

(** C2, read literally, fails when the session raises while detaching: the
    error reaches the caller but 'did-close' is never emitted. *)
Lemma close_always_notifies_counterexample :
  ~ close_always_notifies Scenario.ext0 Scenario.faulty true
      (Scenario.world_with Scenario.faulty).
Proof.
  unfold close_always_notifies. intros H.
  vm_compute in H. destruct H as (_ & H & _). discriminate H.
Qed.

Lemma _initialize_begin_run (c : RemoteConnection) (w : World) :
  _initialize_begin c w =
  (Returned tt,
   mkWorld (alter (fun s => mkServer (sc_config s) (_connections s ++ [c])
                              (sc_alwaysShutdownIfLast s) (sc_closeCalls s))
              (_connection c) (servers w))
     (objects w) (nextOid w)
     (trace w ++ [EvAttach c;
                  EvRpc (_connection c) SOURCE_CONTROL_SERVICE "getHgRepository" (_cwd c)])).
Proof.
  unfold _initialize_begin, addConnection. run_model.
  now rewrite <- app_assoc.
Qed.

Lemma _initialize_begin_registry (c : RemoteConnection) (w : World) :
  getByHostname (_connection c) (snd (_initialize_begin c w))
  = match servers w !! _connection c with
    | Some s => _connections s ++ [c]
    | None => []
    end.
Proof.
  rewrite _initialize_begin_run. unfold getByHostname. simpl.
  rewrite lookup_alter_eq. now destruct (servers w !! _connection c).
Qed.

(** When [close c false] runs in a world where [c] is the connection
    attached last, and the session lets it go, the registry is as before
    the attachment. *)
Lemma close_restores_registry (ext : Externals) (c : RemoteConnection)
  (w wf : World) :
  (forall e, detachFault ext c false <> FaultBefore e) ->
  (forall c', c' ∈ getByHostname (_connection c) w -> oid c' <> oid c) ->
  getByHostname (_connection c) wf
  = match servers w !! _connection c with
    | Some s => _connections s ++ [c]
    | None => []
    end ->
  getByHostname (_connection c) (snd (close ext c false wf))
  = getByHostname (_connection c) w.
Proof.
  intros Hfault Hfresh Hwf. rewrite close_run.
  destruct (detached_world_registry c false (closing_world c false wf)) as (Hreg & _).
  change (getByHostname (_connection c) (closing_world c false wf))
    with (getByHostname (_connection c) wf) in Hreg.
  assert (Hback : remove_first c (getByHostname (_connection c) wf)
                  = getByHostname (_connection c) w).
  { rewrite Hwf. unfold getByHostname in *.
    destruct (servers w !! _connection c) as [s|]; [|reflexivity].
    now apply remove_first_snoc. }
  destruct (detachFault ext c false) as [|e|e] eqn:Hf; simpl.
  - unfold getByHostname at 1. simpl.
    fold (getByHostname (_connection c)
            (detached_world c false (closing_world c false wf))).
    now rewrite Hreg.
  - now destruct (Hfault e).
  - now rewrite Hreg.
Qed.

Lemma close_trace (ext : Externals) (c : RemoteConnection) (b : bool) (w : World) :
  exists l, trace (snd (close ext c b w)) = trace w ++ l.
Proof.
  rewrite close_run.
  destruct (detached_world_registry c b (closing_world c b w)) as (_ & _ & _ & Ht).
  destruct (detachFault ext c b); simpl.
  - destruct Ht as [-> | ->]; simpl; rewrite <- !app_assoc; eauto.
  - eauto.
  - destruct Ht as [-> | ->]; simpl; rewrite <- ?app_assoc; eauto.
Qed.

(** C6. [_initialize] attaches the connection to its session before
    anything else, in particular before the repository request is sent and
    so before any suspension; 'did-add' is emitted after the attachment.
    The outcome is the first failure among the repository lookup, the
    'did-add' handlers and the start of the watch, or the connection itself.
    On such a failure [close(false)] is invoked and the original error is
    raised again; if the session lets the connection go, the registry is
    what it was before the call. *)
Theorem _initialize_attaches_first_and_cleans_up (ext : Externals)
  (c : RemoteConnection) (w : World) (r : Outcome RemoteConnection) (w' : World) :
  _initialize ext c w = (r, w') ->
  (exists rest,
      added w w' = EvAttach c
                   :: EvRpc (_connection c) SOURCE_CONTROL_SERVICE "getHgRepository" (_cwd c)
                   :: rest)
  /\ r = match first_failure ext c with
         | Some e => Thrown e
         | None => Returned c
         end
  /\ (first_failure ext c = None ->
      added w w' = [EvAttach c;
                    EvRpc (_connection c) SOURCE_CONTROL_SERVICE "getHgRepository" (_cwd c);
                    EvEmit "did-add" c; EvWatch c]
      /\ getByHostname (_connection c) w'
         = match servers w !! _connection c with
           | Some s => _connections s ++ [c]
           | None => []
           end)
  /\ (forall e, first_failure ext c = Some e ->
      (exists wf l,
          w' = snd (close ext c false wf)
          /\ trace wf = trace w ++ EvAttach c :: l
          /\ (forall ev, ev ∈ l -> ev <> EvEmit "did-close" c))
      /\ ((forall e', detachFault ext c false <> FaultBefore e') ->
          (forall c', c' ∈ getByHostname (_connection c) w -> oid c' <> oid c) ->
          getByHostname (_connection c) w' = getByHostname (_connection c) w)).
Proof.
  unfold _initialize. unfold bind at 1.
  pose proof (_initialize_begin_registry c w) as Hreg.
  rewrite _initialize_begin_run in *. simpl in Hreg.
  set (wa := mkWorld _ _ _ _) in *.
  unfold _initialize_resume, first_failure, getPathForInitialWorkingDirectory.
  unfold bind at 1. unfold try_catch at 1. unfold bind at 1. unfold await at 1.
  destruct (getHgRepository ext (_connection c) (_cwd c)) as [d|e] eqn:Hhg.
  - unfold bind at 1. unfold _setHgRepositoryDescription, set_objects at 1.
    unfold bind at 1. unfold emit at 1. unfold bind at 1. unfold tell at 1.
    cbn [fst snd servers objects nextOid trace].
    set (wb := mkWorld _ _ _ (trace wa ++ [EvEmit "did-add" c])).
    assert (Hwb : getByHostname (_connection c) wb
                  = match servers w !! _connection c with
                    | Some s => _connections s ++ [c]
                    | None => []
                    end) by exact Hreg.
    assert (Htb : trace wb = trace w ++
                    EvAttach c
                    :: [EvRpc (_connection c) SOURCE_CONTROL_SERVICE "getHgRepository" (_cwd c);
                        EvEmit "did-add" c]).
    { subst wb wa. simpl. now rewrite <- app_assoc. }
    assert (Hnc : forall ev,
               ev ∈ [EvRpc (_connection c) SOURCE_CONTROL_SERVICE "getHgRepository" (_cwd c);
                     EvEmit "did-add" c] -> ev <> EvEmit "did-close" c).
    { intros ev. rewrite !elem_of_cons, elem_of_nil. intros [->|[->|[]]]; discriminate. }
    destruct (handlerFault ext "did-add" c) as [e|] eqn:Hh.
    + unfold throw at 1. unfold bind at 1. unfold detached at 1.
      unfold ret, throw. intros [= <- <-].
      split; [|split; [reflexivity|split; [discriminate|]]].
      * destruct (close_trace ext c false wb) as (l & Hl).
        erewrite added_app by (rewrite Hl, Htb, <- app_assoc; simpl; reflexivity).
        eauto.
      * intros e' [= <-]. split.
        -- exists wb. eexists. split; [reflexivity|]. split; [exact Htb | exact Hnc].
        -- intros Hfault Hfresh. now apply close_restores_registry.
    + unfold ret at 1. unfold _watchRootProjectDirectory.
      destruct (watchFault ext c) as [e|] eqn:Hw.
      * unfold throw at 1. unfold bind at 1. unfold detached at 1.
        unfold ret, throw. intros [= <- <-].
        split; [|split; [reflexivity|split; [discriminate|]]].
        -- destruct (close_trace ext c false wb) as (l & Hl).
           erewrite added_app by (rewrite Hl, Htb, <- app_assoc; simpl; reflexivity).
           eauto.
        -- intros e' [= <-]. split.
           ++ exists wb. eexists. split; [reflexivity|]. split; [exact Htb | exact Hnc].
           ++ intros Hfault Hfresh. now apply close_restores_registry.
      * run_model. intros [= <- <-].
        erewrite added_app by (simpl; rewrite <- !app_assoc; simpl; reflexivity).
        split; [eexists; reflexivity|]. split; [reflexivity|].
        split; [|discriminate]. intros _. split; [reflexivity | exact Hreg].
  - unfold bind at 1. unfold detached at 1. unfold ret, throw. intros [= <- <-].
    split; [|split; [reflexivity|split; [discriminate|]]].
    + destruct (close_trace ext c false wa) as (l & Hl).
      erewrite added_app by (rewrite Hl; subst wa; simpl; rewrite <- app_assoc;
                             simpl; reflexivity).
      eauto.
    + intros e' [= <-]. split.
      * exists wa. eexists. split; [reflexivity|]. split; [reflexivity|].
        intros ev. rewrite !elem_of_cons, elem_of_nil. intros [->|[]]; discriminate.
      * intros Hfault Hfresh. now apply close_restores_registry.
Qed.

(** The repository lookup for "/work" fails: the error comes back and the
    registry of "dev" holds the connection it held before. *)
Lemma _initialize_attaches_first_and_cleans_up_witness :
  fst (_initialize Scenario.ext0 Scenario.work (Scenario.world_with Scenario.proj))
  = Thrown Scenario.HgFailure
  /\ getByHostname "dev"
       (snd (_initialize Scenario.ext0 Scenario.work (Scenario.world_with Scenario.proj)))
     = [Scenario.proj].
Proof.
  destruct (_initialize_attaches_first_and_cleans_up Scenario.ext0 Scenario.work
              (Scenario.world_with Scenario.proj) _ _ (surjective_pairing _))
    as (_ & Hr & _ & Hf).
  split; [exact Hr|].
  destruct (Hf Scenario.HgFailure eq_refl) as [_ Hreg].
  transitivity (getByHostname (_connection Scenario.work)
                  (Scenario.world_with Scenario.proj));
    [apply Hreg | vm_compute; reflexivity].
  - intros e'. vm_compute. discriminate.
  - intros c' Hin.
    assert (Hl : getByHostname (_connection Scenario.work)
                   (Scenario.world_with Scenario.proj) = [Scenario.proj])
      by (vm_compute; reflexivity).
    rewrite Hl in Hin. apply list_elem_of_singleton in Hin. subst c'.
    simpl. discriminate.
Defined.

(** ** Reusing an existing connection for the real path *)

Lemma getByHostnameAndPath_registry (h p : string) (w w' : World) :
  getByHostname h w' = getByHostname h w ->
  getByHostnameAndPath h p w' = getByHostnameAndPath h p w.
Proof. unfold getByHostnameAndPath. now intros ->. Qed.

Ltac same_registry w :=
  match goal with
  | |- context [getByHostnameAndPath ?h ?p ?w'] =>
      change (getByHostnameAndPath h p w') with (getByHostnameAndPath h p w)
  end.

Ltac same_registry_in H w :=
  match type of H with
  | context [getByHostnameAndPath ?h ?p ?w'] =>
      change (getByHostnameAndPath h p w') with (getByHostnameAndPath h p w) in H
  end.

Lemma findOrCreate_resolve_existing (ext : Externals) (sc dir realPath : string)
  (c : RemoteConnection) (w : World) :
  resolveRealPath ext sc dir = Returned realPath ->
  (hasAtomProjectFormat ext realPath = false
   \/ exists e, readFile ext sc realPath = Thrown e) ->
  realPath <> dir ->
  uri_isRemote ext dir = true ->
  getByHostnameAndPath (uri_getHostname ext dir) realPath w = Some c ->
  fst (findOrCreate_resolve ext sc dir w) = Returned (inl c).
Proof.
  intros Hrp Hnot Hne Hrem Hfound.
  apply String.eqb_neq in Hne.
  unfold findOrCreate_resolve. run_model. rewrite Hrp. simpl.
  destruct (hasAtomProjectFormat ext realPath) eqn:Hfmt; simpl.
  - destruct Hnot as [Hnot | [e He]]; [discriminate|].
    rewrite He. simpl. rewrite Hne, Hrem. simpl.
    same_registry w. rewrite Hfound. reflexivity.
  - rewrite Hne, Hrem. simpl.
    same_registry w. rewrite Hfound. reflexivity.
Qed.

(** C4, as the program has it.  When the real path is not a project file
    that can be read (its extension is neither .json nor .cson, or reading
    it fails), differs from the requested cwd, the requested cwd is a remote
    URI, and the registry has a connection for the hostname of the cwd whose
    root is a prefix of the real path, [findOrCreate] returns that
    connection: no object is constructed, nothing is attached and the
    registry is unchanged. *)
Theorem findOrCreate_returns_existing_connection (ext : Externals)
  (config : RemoteConnectionConfiguration) (w : World) (realPath : string)
  (c : RemoteConnection) :
  fst (getOrCreate ext config w) = Returned (host config) ->
  resolveRealPath ext (host config) (cwd config) = Returned realPath ->
  (hasAtomProjectFormat ext realPath = false
   \/ exists e, readFile ext (host config) realPath = Thrown e) ->
  realPath <> cwd config ->
  uri_isRemote ext (cwd config) = true ->
  getByHostnameAndPath (uri_getHostname ext (cwd config)) realPath w = Some c ->
  exists w',
    findOrCreate ext config w = (Returned (Some c), w')
    /\ nextOid w' = nextOid w
    /\ objects w' = objects w
    /\ (forall h, getByHostname h w' = getByHostname h w)
    /\ (forall c', EvAttach c' ∉ added w w').
Proof.
  intros Hacq Hrp Hnot Hne Hrem Hfound.
  destruct (getOrCreate_returned _ _ _ _ Hacq)
    as (w1 & Hw1 & _ & Hreg & _ & Hoid & Hobj & Htr).
  assert (Hfound1 : getByHostnameAndPath (uri_getHostname ext (cwd config)) realPath w1
                    = Some c).
  { rewrite <- Hfound. apply getByHostnameAndPath_registry, Hreg. }
  pose proof (findOrCreate_resolve_existing ext (host config) (cwd config) realPath c w1
                Hrp Hnot Hne Hrem Hfound1) as Hres.
  pose proof (findOrCreate_resolve_frame ext (host config) (cwd config) w1) as Hframe.
  destruct (findOrCreate_resolve ext (host config) (cwd config) w1) as [r w2] eqn:Hrun.
  simpl in Hres. subst r.
  destruct Hframe as (Hsrv & Hobj2 & Hoid2 & l & Hl & Hnoattach).
  exists w2. split.
  - unfold findOrCreate. unfold bind at 1. rewrite Hw1.
    unfold bind at 1. unfold try_catch at 1. rewrite Hrun. reflexivity.
  - split; [congruence|]. split; [congruence|]. split.
    + intros h. rewrite <- Hreg. now apply getByHostname_servers.
    + intros c'. erewrite added_app by (rewrite Hl, Htr, <- app_assoc; reflexivity).
      simpl. rewrite not_elem_of_cons. split; [discriminate | apply Hnoattach].
Qed.

(** "nuclide://dev/lnk" is a link to "/proj/sub", below the root "/proj"
    that is already open: that connection is the result. *)
Lemma findOrCreate_returns_existing_connection_witness :
  fst (findOrCreate Scenario.ext0 (Scenario.cfg "nuclide://dev/lnk")
         (Scenario.world_with Scenario.proj))
  = Returned (Some Scenario.proj).
Proof.
  destruct (findOrCreate_returns_existing_connection Scenario.ext0
              (Scenario.cfg "nuclide://dev/lnk") (Scenario.world_with Scenario.proj)
              "/proj/sub" Scenario.proj) as (w' & Hrun & _).
  - vm_compute. reflexivity.
  - reflexivity.
  - left. reflexivity.
  - discriminate.
  - reflexivity.
  - vm_compute. reflexivity.
  - now rewrite Hrun.
Defined.

(** C4, read literally, fails when the real path is a project file:
    "nuclide://dev/link.json" resolves to "/proj/app.json", which lies under
    the open root "/proj", yet the project's directories are opened as new
    connections and the one for "/proj/a" is returned. *)
Lemma reuse_whenever_real_path_is_covered_counterexample :
  ~ reuse_whenever_real_path_is_covered Scenario.ext0
      (Scenario.cfg "nuclide://dev/link.json") (Scenario.world_with Scenario.proj).
Proof.
  intros H. specialize (H "/proj/app.json" Scenario.proj).
  assert (Hrun : fst (findOrCreate Scenario.ext0 (Scenario.cfg "nuclide://dev/link.json")
                        (Scenario.world_with Scenario.proj))
                 = Returned (Some (mkConn 1 "/proj/a" "dev" "App" true)))
    by (vm_compute; reflexivity).
  destruct (findOrCreate _ _ _) as [r w'].
  destruct H as [Hr _].
  - vm_compute. reflexivity.
  - reflexivity.
  - discriminate.
  - vm_compute. reflexivity.
  - simpl in Hrun. rewrite Hr in Hrun. discriminate Hrun.
Qed.

(** ** Opening the directories of a project file *)

Lemma Promise_all_returned {A} (l : list A) : Promise_all (map Returned l) = Returned l.
Proof. induction l as [|a l IH]; simpl; [reflexivity | now rewrite IH]. Qed.

(** The synchronous pass over the directories: one fresh object per
    directory, attached in index order. *)
Lemma construct_each_run (sc title : string) (prompt : option bool)
  (dirs : list string) :
  forall (i : nat) (w : World),
  exists w',
    construct_each sc title prompt i dirs w
    = (Returned
         (imap (fun k d => mkConn (nextOid w + k) d sc
                             (if Nat.eqb (i + k) 0 then title else "")
                             (match prompt with Some false => false | _ => true end))
            dirs), w')
    /\ (forall h, getByHostname h w'
                  = if decide (sc = h)
                    then match servers w !! sc with
                         | Some s =>
                             _connections s ++
                             imap (fun k d => mkConn (nextOid w + k) d sc
                                                (if Nat.eqb (i + k) 0 then title else "")
                                                (match prompt with
                                                 | Some false => false
                                                 | _ => true
                                                 end)) dirs
                         | None => []
                         end
                    else getByHostname h w)
    /\ exists l, trace w' = trace w ++ l.
Proof.
  induction dirs as [|dir rest IH]; intros i w.
  - exists w. split; [reflexivity|]. split.
    + intros h. unfold getByHostname. destruct (decide (sc = h)) as [<-|]; [|reflexivity].
      destruct (servers w !! sc); [now rewrite app_nil_r | reflexivity].
    + exists []. now rewrite app_nil_r.
  - simpl construct_each. unfold bind at 1. unfold new_RemoteConnection at 1.
    cbn [fst snd]. unfold bind at 1.
    set (c := mkConn (nextOid w) dir sc _ _).
    set (w0 := mkWorld (servers w) _ (S (nextOid w)) (trace w)).
    rewrite _initialize_begin_run.
    set (w1 := mkWorld _ (objects w0) (nextOid w0) _).
    destruct (IH (S i) w1) as (w' & Hrun & Hreg & l & Hl).
    exists w'. unfold bind at 1. rewrite Hrun. unfold ret.
    assert (Himap :
              imap (fun k d => mkConn (nextOid w + k) d sc
                                 (if Nat.eqb (i + k) 0 then title else "")
                                 (match prompt with Some false => false | _ => true end))
                (dir :: rest)
              = c :: imap (fun k d => mkConn (nextOid w1 + k) d sc
                                        (if Nat.eqb (S i + k) 0 then title else "")
                                        (match prompt with Some false => false | _ => true end))
                     rest).
    { rewrite imap_cons. subst c. f_equal.
      - now rewrite !Nat.add_0_r.
      - apply imap_ext. intros k d _. simpl.
        replace (nextOid w + S k) with (S (nextOid w + k)) by lia.
        replace (i + S k) with (S (i + k)) by lia. reflexivity. }
    rewrite Himap. split; [reflexivity|]. split.
    + intros h. rewrite Hreg.
      destruct (decide (sc = h)) as [<-|Hne].
      * subst w1. simpl. rewrite lookup_alter_eq.
        destruct (servers w !! sc) as [s|]; simpl; [|reflexivity].
        now rewrite <- app_assoc.
      * unfold getByHostname. subst w1. simpl. now rewrite lookup_alter_ne.
    + exists ([EvAttach c; EvRpc sc SOURCE_CONTROL_SERVICE "getHgRepository" dir] ++ l).
      rewrite Hl. subst w1 w0. simpl. now rewrite <- app_assoc.
Qed.

Lemma _initialize_resume_success (ext : Externals) (c : RemoteConnection) (w : World) :
  first_failure ext c = None ->
  exists w',
    _initialize_resume ext c
      (getHgRepository ext (_connection c) (getPathForInitialWorkingDirectory c)) w
    = (Returned c, w')
    /\ servers w' = servers w
    /\ trace w' = trace w ++ [EvEmit "did-add" c; EvWatch c].
Proof.
  unfold first_failure, _initialize_resume. intros H.
  destruct (getHgRepository _ _ _) as [d|e]; [|discriminate].
  destruct (handlerFault ext "did-add" c) eqn:Hh; [discriminate|].
  unfold _setHgRepositoryDescription, emit, _watchRootProjectDirectory.
  rewrite Hh, H. run_model.
  eexists. split; [reflexivity|]. split; [reflexivity|].
  simpl. now rewrite <- app_assoc.
Qed.

Lemma settle_each_success (ext : Externals) (pending : list RemoteConnection) :
  forall w : World,
  (forall c, c ∈ pending -> first_failure ext c = None) ->
  exists w',
    settle_each ext pending w = (map Returned pending, w')
    /\ servers w' = servers w
    /\ exists l, trace w' = trace w ++ l
                 /\ forall c, c ∈ pending -> EvEmit "did-add" c ∈ l.
Proof.
  induction pending as [|c rest IH]; intros w Hok.
  - exists w. split; [reflexivity|]. split; [reflexivity|].
    exists []. split; [now rewrite app_nil_r|]. intros c Hin.
    now apply elem_of_nil in Hin.
  - destruct (_initialize_resume_success ext c w) as (w1 & Hrun & Hsrv & Htr).
    { apply Hok. now left. }
    destruct (IH w1) as (w' & Hrest & Hsrv' & l & Hl & Hemit).
    { intros c' Hin. apply Hok. now right. }
    exists w'. simpl. rewrite Hrun, Hrest. split; [reflexivity|].
    split; [congruence|].
    exists ([EvEmit "did-add" c; EvWatch c] ++ l). split.
    + rewrite Hl, Htr. now rewrite <- app_assoc.
    + intros c' Hin. apply elem_of_cons in Hin as [->|Hin].
      * now left.
      * apply elem_of_app. right. now apply Hemit.
Qed.

Lemma findOrCreate_resolve_descriptor (ext : Externals) (sc dir realPath raw : string)
  (pc : ProjectContents) (w : World) :
  resolveRealPath ext sc dir = Returned realPath ->
  hasAtomProjectFormat ext realPath = true ->
  readFile ext sc realPath = Returned raw ->
  fst (parseProject ext raw w) = Returned pc ->
  (forall f pc', atom_project_replace ext = Some f -> f pc' = None) ->
  fst (findOrCreate_resolve ext sc dir w)
  = Returned (inr match paths pc with
                  | PathsArray l => map (uri_resolve ext (uri_dirname ext realPath)) l
                  | PathsUndefined | PathsNotArray _ => [uri_dirname ext realPath]
                  end).
Proof.
  intros Hrp Hfmt Hread Hparse Hreplace.
  unfold findOrCreate_resolve. run_model. rewrite Hrp. simpl. rewrite Hfmt. simpl.
  rewrite Hread. simpl. rewrite parseProject_run in *. simpl in *. rewrite Hparse.
  simpl. destruct (atom_project_replace ext) as [f|] eqn:Hf; simpl.
  - rewrite (Hreplace f _ eq_refl). simpl. now destruct (paths pc).
  - now destruct (paths pc).
Qed.

(** C5. When the cwd resolves to a project file that is read and parsed,
    and every initialization succeeds, [findOrCreate] constructs one
    connection per directory of the list in the file, each directory
    resolved against the directory of the file; when the file has no list
    (no [paths], or one that is not an array) the directory of the file is
    the only target.  The connection at index 0 has the caller's display
    title and the others the empty title; all are registered, in order,
    after the connections the session already had; each emits 'did-add';
    the result is the connection at index 0. *)
Theorem findOrCreate_opens_project_directories (ext : Externals)
  (config : RemoteConnectionConfiguration) (w : World) (realPath raw : string)
  (pc : ProjectContents) :
  fst (getOrCreate ext config w) = Returned (host config) ->
  resolveRealPath ext (host config) (cwd config) = Returned realPath ->
  hasAtomProjectFormat ext realPath = true ->
  readFile ext (host config) realPath = Returned raw ->
  fst (parseProject ext raw w) = Returned pc ->
  (forall f pc', atom_project_replace ext = Some f -> f pc' = None) ->
  let dirs :=
    match paths pc with
    | PathsArray l => map (uri_resolve ext (uri_dirname ext realPath)) l
    | PathsUndefined | PathsNotArray _ => [uri_dirname ext realPath]
    end in
  let connections :=
    imap (fun i dir =>
            mkConn (nextOid w + i) dir (host config)
              (if Nat.eqb i 0 then displayTitle config else "")
              (match promptReconnectOnFailure config with
               | Some false => false
               | _ => true
               end)) dirs in
  (forall c, c ∈ connections -> first_failure ext c = None) ->
  exists w',
    findOrCreate ext config w = (Returned (head connections), w')
    /\ getByHostname (host config) w' = getByHostname (host config) w ++ connections
    /\ (forall c, c ∈ connections -> EvEmit "did-add" c ∈ added w w').
Proof.
  intros Hacq Hrp Hfmt Hread Hparse Hreplace dirs connections Hok.
  destruct (getOrCreate_returned _ _ _ _ Hacq)
    as (w1 & Hw1 & Hsome & Hreg & _ & Hoid & _ & Htr).
  assert (Hparse1 : fst (parseProject ext raw w1) = Returned pc).
  { rewrite parseProject_run in *. exact Hparse. }
  pose proof (findOrCreate_resolve_descriptor ext (host config) (cwd config) realPath raw
                pc w1 Hrp Hfmt Hread Hparse1 Hreplace) as Hres.
  pose proof (findOrCreate_resolve_frame ext (host config) (cwd config) w1) as Hframe.
  destruct (findOrCreate_resolve ext (host config) (cwd config) w1) as [r w2] eqn:Hrun.
  simpl in Hres. subst r. fold dirs in Hrun.
  destruct Hframe as (Hsrv & _ & Hoid2 & l2 & Hl2 & _).
  destruct (construct_each_run (host config) (displayTitle config)
              (promptReconnectOnFailure config) dirs 0 w2)
    as (w3 & Hcons & Hreg3 & l3 & Hl3).
  assert (Hsame :
            imap (fun k d => mkConn (nextOid w2 + k) d (host config)
                               (if Nat.eqb (0 + k) 0 then displayTitle config else "")
                               (match promptReconnectOnFailure config with
                                | Some false => false
                                | _ => true
                                end)) dirs
            = connections).
  { subst connections. apply imap_ext. intros k d _. simpl.
    now rewrite Hoid2, Hoid. }
  rewrite Hsame in Hcons.
  destruct (settle_each_success ext connections w3 Hok)
    as (w4 & Hsettle & Hsrv4 & l4 & Hl4 & Hemit).
  exists w4. split; [|split].
  - unfold findOrCreate. unfold bind at 1. rewrite Hw1.
    unfold bind at 1. unfold try_catch at 1. rewrite Hrun.
    unfold bind at 1. rewrite Hcons. unfold bind at 1. rewrite Hsettle.
    now rewrite Promise_all_returned.
  - rewrite (getByHostname_servers _ w3 w4 Hsrv4), Hreg3.
    destruct (decide (host config = host config)) as [_|Hne]; [|contradiction].
    rewrite Hsame, <- Hreg, Hsrv. unfold getByHostname.
    destruct Hsome as [s ->]. reflexivity.
  - intros c Hin.
    erewrite added_app
      by (rewrite Hl4, Hl3, Hl2, Htr, <- !app_assoc; reflexivity).
    rewrite !elem_of_app. right. right. right. now apply Hemit.
Qed.

(** The example of the specification: "/proj/app.json" lists "a" and "b";
    the connections are rooted at "/proj/a", titled "App", and "/proj/b",
    untitled, and the first one is returned. *)
Lemma findOrCreate_opens_project_directories_witness :
  exists w',
    findOrCreate Scenario.ext0 (Scenario.cfg "/proj/app.json") Scenario.empty_world
    = (Returned (Some (mkConn 0 "/proj/a" "dev" "App" true)), w')
    /\ getByHostname "dev" w'
       = [mkConn 0 "/proj/a" "dev" "App" true; mkConn 1 "/proj/b" "dev" "" true].
Proof.
  destruct (findOrCreate_opens_project_directories Scenario.ext0
              (Scenario.cfg "/proj/app.json") Scenario.empty_world
              "/proj/app.json" "paths: ['a', 'b']"
              (mkProject (PathsArray ["a"; "b"]) None ""))
    as (w' & Hrun & Hreg & _).
  - vm_compute. reflexivity.
  - reflexivity.
  - reflexivity.
  - reflexivity.
  - vm_compute. reflexivity.
  - intros f pc' Hf. discriminate Hf.
  - intros c Hin.
    match type of Hin with
    | _ ∈ ?l =>
        assert (Hl : l = [mkConn 0 "/proj/a" "dev" "App" true;
                          mkConn 1 "/proj/b" "dev" "" true])
          by (vm_compute; reflexivity);
        rewrite Hl in Hin
    end.
    rewrite !elem_of_cons, elem_of_nil in Hin.
    destruct Hin as [->|[->|[]]]; reflexivity.
  - exists w'. split; [exact Hrun | exact Hreg].
Defined.

(** ** Reconnection *)

(** The world once [reconnect] has logged its attempt. *)
Lemma reconnect_logs_first (ext : Externals) (h dir title : string) (prompt : bool)
  (w : World) :
  reconnect ext h dir title prompt w =
  (do existing <-
     (if negb (hasAtomProjectFormat ext dir)
      then fun w => (Returned (getByHostnameAndPath h dir w), w)
      else ret None) ;
   match existing with
   | Some connection => ret (Some connection)
   | None =>
       do connection <- _createConnectionBySavedConfig ext h dir title prompt ;
       match connection with
       | Some c => ret (Some c)
       | None =>
           try_catch
             (do address <- (run tell (EvDns h) ; await (lookupPreferIpv6 ext h)) ;
              _createConnectionBySavedConfig ext address dir title prompt)
             (fun err => ret None)
       end
   end)
    (mkWorld (servers w) (objects w) (nextOid w)
       (trace w ++ [EvLog LInfo "Attempting to reconnect"])).
Proof. reflexivity. Qed.

(** How [_createConnectionBySavedConfig] classifies the failure of the
    connection attempt it makes with a saved configuration. *)
Lemma createConnectionBySavedConfig_classifies (ext : Externals)
  (h dir title : string) (prompt : bool) (saved : RemoteConnectionConfiguration)
  (w : World) (e : JsError) (w1 : World) :
  getConnectionConfig ext h = Returned (Some saved) ->
  findOrCreate ext (spread_saved saved dir title prompt)
    (mkWorld (servers w) (objects w) (nextOid w) (trace w ++ [EvSavedConfig h]))
  = (Thrown e, w1) ->
  _createConnectionBySavedConfig ext h dir title prompt w =
  if code_is e "ENOENT"
  then (Thrown (tag_directory_not_found e), w1)
  else (Returned None,
        mkWorld (servers w1) (objects w1) (nextOid w1)
          (trace w1 ++
             [EvLog (if String.eqb (err_name e) "VersionMismatchError"
                     then LWarn else LError)
                ("Failed to reuse connectionConfiguration for " +:+ h)])).
Proof.
  intros Hcfg Hrun. unfold _createConnectionBySavedConfig.
  unfold bind at 1. unfold bind at 1. unfold tell at 1. unfold await at 1.
  rewrite Hcfg. unfold try_catch. cbn [fst snd servers objects nextOid trace].
  rewrite Hrun. now destruct (code_is e "ENOENT").
Qed.

(** Without a live connection to return, [reconnect] goes on to the saved
    configurations. *)
Lemma reconnect_without_live_connection (ext : Externals) (h dir title : string)
  (prompt : bool) (w : World) :
  hasAtomProjectFormat ext dir = true \/ getByHostnameAndPath h dir w = None ->
  reconnect ext h dir title prompt w =
  (do connection <- _createConnectionBySavedConfig ext h dir title prompt ;
   match connection with
   | Some c => ret (Some c)
   | None =>
       try_catch
         (do address <- (run tell (EvDns h) ; await (lookupPreferIpv6 ext h)) ;
          _createConnectionBySavedConfig ext address dir title prompt)
         (fun err => ret None)
   end)
    (mkWorld (servers w) (objects w) (nextOid w)
       (trace w ++ [EvLog LInfo "Attempting to reconnect"])).
Proof.
  intros Hother. rewrite reconnect_logs_first. unfold bind at 1.
  destruct (hasAtomProjectFormat ext dir) eqn:Hfmt; cbn [negb]; [reflexivity|].
  destruct Hother as [Habs | Hnone]; [discriminate|].
  same_registry w. now rewrite Hnone.
Qed.

(** C8. [reconnect] first logs the attempt.  If the cwd is not a project
    file path and the registry has a connection for the host whose root is
    a prefix of the cwd, that connection is returned and nothing else
    happens: no saved-configuration lookup, no address resolution, no remote
    call.  Otherwise the saved configuration of the hostname is tried; a
    connection it yields is returned; when it yields null the address of
    the host is resolved, a failure to resolve giving null, and the saved
    configuration of the address is tried, whose connection is returned and
    whose failure or null gives null. *)
Theorem reconnect_prefers_live_connection (ext : Externals) (h dir title : string)
  (prompt : bool) (w : World) (r : Outcome (option RemoteConnection)) (w' : World) :
  reconnect ext h dir title prompt w = (r, w') ->
  let w0 := mkWorld (servers w) (objects w) (nextOid w)
              (trace w ++ [EvLog LInfo "Attempting to reconnect"]) in
  (forall c,
      hasAtomProjectFormat ext dir = false ->
      getByHostnameAndPath h dir w = Some c ->
      r = Returned (Some c) /\ w' = w0)
  /\ (hasAtomProjectFormat ext dir = true \/ getByHostnameAndPath h dir w = None ->
      match _createConnectionBySavedConfig ext h dir title prompt w0 with
      | (Returned (Some c), w1) => r = Returned (Some c) /\ w' = w1
      | (Thrown e, w1) => r = Thrown e /\ w' = w1
      | (Returned None, w1) =>
          let w2 := mkWorld (servers w1) (objects w1) (nextOid w1)
                      (trace w1 ++ [EvDns h]) in
          match lookupPreferIpv6 ext h with
          | Thrown _ => r = Returned None /\ w' = w2
          | Returned address =>
              match _createConnectionBySavedConfig ext address dir title prompt w2 with
              | (Returned found, w3) => r = Returned found /\ w' = w3
              | (Thrown _, w3) => r = Returned None /\ w' = w3
              end
          end
      end).
Proof.
  intros Hrun w0. split.
  - intros c Hfmt Hfound. rewrite reconnect_logs_first in Hrun.
    unfold bind at 1 in Hrun. rewrite Hfmt in Hrun. cbn [negb] in Hrun.
    same_registry_in Hrun w. rewrite Hfound in Hrun.
    unfold ret in Hrun. now injection Hrun as <- <-.
  - intros Hother. rewrite reconnect_without_live_connection in Hrun by exact Hother.
    fold w0 in Hrun. unfold bind at 1 in Hrun.
    destruct (_createConnectionBySavedConfig ext h dir title prompt w0) as [[[c|]|e] w1].
    + unfold ret in Hrun. now injection Hrun as <- <-.
    + unfold try_catch, bind, tell, await in Hrun.
      cbn [fst snd servers objects nextOid trace] in Hrun.
      cbv zeta.
      destruct (lookupPreferIpv6 ext h) as [address|e].
      * destruct (_createConnectionBySavedConfig ext address dir title prompt _)
          as [[found|e] w3]; unfold ret in Hrun; now injection Hrun as <- <-.
      * unfold ret in Hrun. now injection Hrun as <- <-.
    + now injection Hrun as <- <-.
Qed.

(** "/proj/sub" on "dev" is covered by the open root "/proj": the only trace
    of the call is its log line. *)
Lemma reconnect_prefers_live_connection_witness :
  reconnect Scenario.ext0 "dev" "/proj/sub" "App" true (Scenario.world_with Scenario.proj)
  = (Returned (Some Scenario.proj),
     mkWorld (servers (Scenario.world_with Scenario.proj))
       (objects (Scenario.world_with Scenario.proj))
       (nextOid (Scenario.world_with Scenario.proj))
       [EvLog LInfo "Attempting to reconnect"]).
Proof.
  destruct (reconnect Scenario.ext0 "dev" "/proj/sub" "App" true
              (Scenario.world_with Scenario.proj)) as [r w'] eqn:Hrun.
  destruct (reconnect_prefers_live_connection _ _ _ _ _ _ _ _ Hrun) as [Hlive _].
  destruct (Hlive Scenario.proj) as [-> ->].
  - reflexivity.
  - vm_compute. reflexivity.
  - reflexivity.
Defined.

(** The address fallback of [reconnect] turns every failure of its attempt
    into null. *)
Lemma reconnect_fallback_swallows (ext : Externals) (h dir title address : string)
  (prompt : bool) (w w1 w3 : World) (e : JsError) :
  hasAtomProjectFormat ext dir = true \/ getByHostnameAndPath h dir w = None ->
  _createConnectionBySavedConfig ext h dir title prompt
    (mkWorld (servers w) (objects w) (nextOid w)
       (trace w ++ [EvLog LInfo "Attempting to reconnect"]))
  = (Returned None, w1) ->
  lookupPreferIpv6 ext h = Returned address ->
  _createConnectionBySavedConfig ext address dir title prompt
    (mkWorld (servers w1) (objects w1) (nextOid w1) (trace w1 ++ [EvDns h]))
  = (Thrown e, w3) ->
  reconnect ext h dir title prompt w = (Returned None, w3).
Proof.
  intros Hother Hfirst Hdns Hsecond.
  rewrite reconnect_without_live_connection by exact Hother.
  unfold bind at 1. rewrite Hfirst.
  unfold try_catch, bind, tell, await.
  cbn [fst snd servers objects nextOid trace].
  rewrite Hdns, Hsecond. reflexivity.
Qed.

(** C3 at the failing input.  The saved configuration of "dev" is stored
    under its address "10.0.0.1" and the directory "/gone" does not exist.
    The attempt with the saved configuration raises ENOENT tagged
    DIRECTORY_NOT_FOUND, as the direct call shows, but [reconnect], which
    makes that attempt in its address fallback, returns null. *)
Theorem reconnect_loses_directory_not_found :
  fst (_createConnectionBySavedConfig Scenario.ext0 "10.0.0.1" "/gone" "App" true
         Scenario.empty_world)
  = Thrown (tag_directory_not_found Scenario.ENOENT)
  /\ fst (reconnect Scenario.ext0 "dev" "/gone" "App" true Scenario.empty_world)
     = Returned None
  /\ EvSavedConfig "10.0.0.1"
     ∈ trace (snd (reconnect Scenario.ext0 "dev" "/gone" "App" true Scenario.empty_world)).
Proof.
  split; [vm_compute; reflexivity|]. split; [vm_compute; reflexivity|].
  assert (Htrace : trace (snd (reconnect Scenario.ext0 "dev" "/gone" "App" true
                                 Scenario.empty_world))
                   = [EvLog LInfo "Attempting to reconnect"; EvSavedConfig "dev";
                      EvDns "dev"; EvSavedConfig "10.0.0.1";
                      EvSessionAcquire "10.0.0.1";
                      EvRpc "10.0.0.1" FILE_SYSTEM_SERVICE "resolveRealPath" "/gone";
                      EvSessionClose "10.0.0.1"])
    by (vm_compute; reflexivity).
  rewrite Htrace. rewrite !elem_of_cons. auto.
Qed.

(** ** Further properties of the registry *)

Lemma string_app_assoc (a b c : string) : (a +:+ b) +:+ c = a +:+ (b +:+ c).
Proof.
  induction a as [|x a IH]; [reflexivity|].
  change (String x ((a +:+ b) +:+ c) = String x (a +:+ (b +:+ c))).
  now rewrite IH.
Qed.

Lemma head_filter_app {A} (f : A -> bool) (l1 l2 : list A) :
  head (List.filter f (l1 ++ l2))
  = match head (List.filter f l1) with
    | Some x => Some x
    | None => head (List.filter f l2)
    end.
Proof.
  rewrite List.filter_app.
  now destruct (List.filter f l1).
Qed.

(** X7. For the empty path [getByHostnameAndPath] considers only the
    connections whose own cwd is empty: it returns the first of them, and
    nothing for a host all of whose connections have a non-empty cwd. *)
Theorem getByHostnameAndPath_empty_path (h : string) (w : World) :
  getByHostnameAndPath h "" w
  = head (List.filter (fun c => String.eqb (_cwd c) "") (getByHostname h w)).
Proof.
  unfold getByHostnameAndPath. f_equal. apply List.filter_ext.
  intros c. unfold startsWith, getPathForInitialWorkingDirectory.
  now destruct (_cwd c).
Qed.

(** X8. A connection that answers for a path answers for every path that
    extends it: if the lookup for [p] finds a connection, the lookup for
    [p] followed by anything finds one too, whose cwd is a prefix of the
    longer path. *)
Theorem getByHostnameAndPath_extends (h p : string) (w : World) (c : RemoteConnection) :
  getByHostnameAndPath h p w = Some c ->
  forall s, exists c',
    getByHostnameAndPath h (p +:+ s) w = Some c'
    /\ exists rest, p +:+ s = _cwd c' +:+ rest.
Proof.
  intros Hfound s.
  pose proof (head_filter_first
                (fun c => startsWith p (getPathForInitialWorkingDirectory c))
                (getByHostname h w)) as Hp.
  unfold getByHostnameAndPath in Hfound. rewrite Hfound in Hp.
  destruct Hp as (l1 & l2 & Hl & Hc & _).
  apply startsWith_iff in Hc as [rest Hrest].
  pose proof (head_filter_first
                (fun c => startsWith (p +:+ s) (getPathForInitialWorkingDirectory c))
                (getByHostname h w)) as Hps.
  unfold getByHostnameAndPath. clear Hfound.
  destruct (head _) as [c'|].
  - exists c'. split; [reflexivity|].
    destruct Hps as (_ & _ & _ & Hc' & _). now apply startsWith_iff in Hc'.
  - rewrite Forall_forall in Hps. specialize (Hps c).
    assert (Hin : c ∈ getByHostname h w).
    { rewrite Hl. apply elem_of_app. right. now left. }
    specialize (Hps Hin).
    assert (Hyes : startsWith (p +:+ s) (getPathForInitialWorkingDirectory c) = true).
    { apply startsWith_iff. exists (rest +:+ s).
      rewrite Hrest. apply string_app_assoc. }
    congruence.
Qed.

(** "/proj" answers for "/proj/sub", hence for "/proj/sub/a.txt". *)
Lemma getByHostnameAndPath_extends_witness :
  exists c',
    getByHostnameAndPath "dev" ("/proj/sub" +:+ "/a.txt") (Scenario.world_with Scenario.proj)
    = Some c'
    /\ exists rest, "/proj/sub" +:+ "/a.txt" = _cwd c' +:+ rest.
Proof.
  apply (getByHostnameAndPath_extends "dev" "/proj/sub"
           (Scenario.world_with Scenario.proj) Scenario.proj).
  vm_compute. reflexivity.
Defined.

(** What a successful [_initialize] leaves behind. *)
Lemma _initialize_success_run (ext : Externals) (c : RemoteConnection) (w : World) :
  first_failure ext c = None ->
  exists w',
    _initialize ext c w = (Returned c, w')
    /\ servers w'
       = alter (fun s => mkServer (sc_config s) (_connections s ++ [c])
                           (sc_alwaysShutdownIfLast s) (sc_closeCalls s))
           (_connection c) (servers w)
    /\ nextOid w' = nextOid w.
Proof.
  intros Hok. unfold _initialize. unfold bind at 1.
  rewrite _initialize_begin_run.
  set (wa := mkWorld _ _ _ _).
  destruct (_initialize_resume_success ext c wa Hok) as (w' & Hrun & Hsrv & _).
  exists w'. split; [exact Hrun|]. split; [exact Hsrv|].
  unfold _initialize_resume, first_failure in *.
  destruct (getHgRepository _ _ _) as [d|e]; [|discriminate].
  destruct (handlerFault ext "did-add" c) eqn:Hh; [discriminate|].
  unfold _setHgRepositoryDescription, emit, _watchRootProjectDirectory in Hrun.
  rewrite Hh, Hok in Hrun. run_model. now injection Hrun as <-.
Qed.

(** X9. Registering a connection never changes the answer of a lookup that
    had one, and answers the lookups that had none and fall under its cwd:
    after a successful [_initialize] of [c] on a known session, the lookup
    for any path gives what it gave before if that was a connection, else
    [c] when the cwd of [c] is a prefix of the path, else nothing. *)
Theorem _initialize_then_lookup (ext : Externals) (c : RemoteConnection) (w : World)
  (p : string) :
  first_failure ext c = None ->
  is_Some (servers w !! _connection c) ->
  getByHostnameAndPath (_connection c) p (snd (_initialize ext c w))
  = match getByHostnameAndPath (_connection c) p w with
    | Some earlier => Some earlier
    | None => if startsWith p (_cwd c) then Some c else None
    end.
Proof.
  intros Hok [s Hs].
  destruct (_initialize_success_run ext c w Hok) as (w' & Hrun & Hsrv & _).
  rewrite Hrun. simpl.
  unfold getByHostnameAndPath, getByHostname. rewrite Hsrv, lookup_alter_eq, Hs. simpl.
  rewrite head_filter_app. destruct (head _); [reflexivity|].
  simpl. unfold getPathForInitialWorkingDirectory.
  now destruct (startsWith p (_cwd c)).
Qed.

(** A second root "/other" on "dev": "/other/x" had no answer and now has. *)
Lemma _initialize_then_lookup_witness :
  getByHostnameAndPath "dev" "/other/x"
    (snd (_initialize Scenario.ext0 Scenario2.other (Scenario.world_with Scenario.proj)))
  = Some Scenario2.other.
Proof.
  etransitivity.
  - apply (_initialize_then_lookup Scenario.ext0 Scenario2.other
             (Scenario.world_with Scenario.proj) "/other/x").
    + vm_compute. reflexivity.
    + vm_compute. eauto.
  - vm_compute. reflexivity.
Defined.

Lemma close_registry (ext : Externals) (c : RemoteConnection) (b : bool) (w : World) :
  (forall e, detachFault ext c b <> FaultBefore e) ->
  getByHostname (_connection c) (snd (close ext c b w))
  = remove_first c (getByHostname (_connection c) w).
Proof.
  intros Hfault. rewrite close_run.
  destruct (detached_world_registry c b (closing_world c b w)) as (Hreg & _).
  change (getByHostname (_connection c) (closing_world c b w))
    with (getByHostname (_connection c) w) in Hreg.
  destruct (detachFault ext c b) as [|e|e] eqn:Hf; simpl.
  - unfold getByHostname at 1. simpl.
    fold (getByHostname (_connection c) (detached_world c b (closing_world c b w))).
    exact Hreg.
  - now destruct (Hfault e).
  - exact Hreg.
Qed.

Lemma head_filter_remove_first (f : RemoteConnection -> bool) (c : RemoteConnection)
  (l : list RemoteConnection) :
  NoDup (map oid l) ->
  match head (List.filter f l) with
  | Some found =>
      if Nat.eqb (oid found) (oid c)
      then forall c', head (List.filter f (remove_first c l)) = Some c' -> oid c' <> oid c
      else head (List.filter f (remove_first c l)) = Some found
  | None => head (List.filter f (remove_first c l)) = None
  end.
Proof.
  induction l as [|x l IH]; intros Hnd; [reflexivity|].
  simpl in Hnd. apply NoDup_cons in Hnd as [Hx Hnd]. specialize (IH Hnd).
  assert (Hrest : oid x = oid c ->
                  forall c', head (List.filter f l) = Some c' -> oid c' <> oid c).
  { intros Hxc c' Hhead Heq.
    pose proof (head_filter_first f l) as Hf. rewrite Hhead in Hf.
    destruct Hf as (l1 & l2 & -> & _). apply Hx. rewrite Hxc, <- Heq.
    apply list_elem_of_fmap. exists c'. split; [reflexivity|].
    apply elem_of_app. right. now left. }
  simpl. destruct (Nat.eqb (oid x) (oid c)) eqn:Hxc.
  - apply Nat.eqb_eq in Hxc. destruct (f x) eqn:Hfx; simpl.
    + apply Nat.eqb_eq in Hxc as Hxc'. rewrite Hxc'. now apply Hrest.
    + destruct (head (List.filter f l)) as [found|] eqn:Hhead; [|reflexivity].
      destruct (Nat.eqb (oid found) (oid c)) eqn:Hfc.
      * intros c' [= <-]. now apply (Hrest Hxc found).
      * reflexivity.
  - simpl. destruct (f x) eqn:Hfx; simpl.
    + now rewrite Hxc.
    + exact IH.
Qed.

(** X10. Closing a connection whose session lets it go takes it out of the
    lookups and disturbs no other answer: a lookup that found another
    connection still finds that one, a lookup that found nothing still finds
    nothing, and a lookup that found the closed connection no longer does. *)
Theorem close_then_lookup (ext : Externals) (c : RemoteConnection) (b : bool)
  (w : World) (p : string) :
  (forall e, detachFault ext c b <> FaultBefore e) ->
  NoDup (map oid (getByHostname (_connection c) w)) ->
  match getByHostnameAndPath (_connection c) p w with
  | Some found =>
      if Nat.eqb (oid found) (oid c)
      then forall c',
          getByHostnameAndPath (_connection c) p (snd (close ext c b w)) = Some c' ->
          oid c' <> oid c
      else getByHostnameAndPath (_connection c) p (snd (close ext c b w)) = Some found
  | None => getByHostnameAndPath (_connection c) p (snd (close ext c b w)) = None
  end.
Proof.
  intros Hfault Hnd. unfold getByHostnameAndPath.
  rewrite (close_registry ext c b w Hfault).
  now apply head_filter_remove_first.
Qed.

(** Closing "/proj" where "/work" is open too: "/work/x" is still answered
    by "/work". *)
Lemma close_then_lookup_witness :
  getByHostnameAndPath "dev" "/work/x"
    (snd (close Scenario.ext0 Scenario.proj false Scenario2.two_world))
  = Some Scenario.work.
Proof.
  pose proof (close_then_lookup Scenario.ext0 Scenario.proj false
                Scenario2.two_world "/work/x") as H.
  assert (Hfound : getByHostnameAndPath (_connection Scenario.proj) "/work/x"
                     Scenario2.two_world = Some Scenario.work)
    by (vm_compute; reflexivity).
  rewrite Hfound in H. simpl in H. apply H.
  - intros e. vm_compute. discriminate.
  - vm_compute. apply NoDup_cons. split.
    + rewrite elem_of_cons. intros [H0|H0]; [discriminate | apply elem_of_nil in H0; exact H0].
    + apply NoDup_cons. split; [apply not_elem_of_nil | apply NoDup_nil_2].
Defined.

(** X12. [getForUri] returns nothing for a URI without hostname, whatever is
    registered; a connection it returns is registered for the hostname of
    the URI and its cwd is a prefix of the path of the URI. *)
Theorem getForUri_sound (ext : Externals) (uri : string) (w : World) :
  match getForUri ext uri w with
  | Some c =>
      exists hostname,
        fst (uri_parse ext uri) = Some hostname
        /\ c ∈ getByHostname hostname w
        /\ exists rest, snd (uri_parse ext uri) = _cwd c +:+ rest
  | None =>
      fst (uri_parse ext uri) = None
      \/ exists hostname,
          fst (uri_parse ext uri) = Some hostname
          /\ forall c, c ∈ getByHostname hostname w ->
                       ~ exists rest, snd (uri_parse ext uri) = _cwd c +:+ rest
  end.
Proof.
  unfold getForUri. destruct (uri_parse ext uri) as [[hostname|] path]; simpl.
  - unfold getByHostnameAndPath.
    pose proof (head_filter_first
                  (fun c => startsWith path (getPathForInitialWorkingDirectory c))
                  (getByHostname hostname w)) as Hf.
    destruct (head _) as [c|].
    + destruct Hf as (l1 & l2 & Hl & Hc & _). exists hostname.
      split; [reflexivity|]. split.
      * rewrite Hl. apply elem_of_app. right. now left.
      * now apply startsWith_iff.
    + right. exists hostname. split; [reflexivity|].
      intros c Hin Hp. rewrite Forall_forall in Hf.
      apply startsWith_iff in Hp. specialize (Hf c Hin).
      unfold getPathForInitialWorkingDirectory in Hf. congruence.
  - now left.
Qed.

(** ** Disposal *)

Lemma close_objects (ext : Externals) (c : RemoteConnection) (b : bool) (w : World) :
  objects (snd (close ext c b w))
  = alter (fun o => mkObj (_hgRepositoryDescription o) (_alwaysShutdownIfLast o) [] true)
      (oid c) (objects w)
  /\ nextOid (snd (close ext c b w)) = nextOid w.
Proof.
  rewrite close_run.
  destruct (detached_world_registry c b (closing_world c b w)) as (_ & Hobj & Hoid & _).
  destruct (detachFault ext c b); simpl; rewrite ?Hobj, ?Hoid; split; reflexivity.
Qed.

(** X11. [close] disposes the subscriptions of the connection whatever the
    detachment does afterwards, even when it raises: the connection is left
    with no subscription and marked disposed, its other fields and every
    other object are untouched. *)
Theorem close_always_disposes (ext : Externals) (c : RemoteConnection) (b : bool)
  (w : World) :
  is_Some (objects w !! oid c) ->
  subscriptions_of c (snd (close ext c b w)) = ([], true)
  /\ getHgRepositoryDescription c (snd (close ext c b w)) = getHgRepositoryDescription c w
  /\ alwaysShutdownIfLast c (snd (close ext c b w)) = alwaysShutdownIfLast c w
  /\ forall i, i <> oid c -> objects (snd (close ext c b w)) !! i = objects w !! i.
Proof.
  intros [o Ho]. destruct (close_objects ext c b w) as [Hobj _].
  unfold subscriptions_of, getHgRepositoryDescription, alwaysShutdownIfLast.
  rewrite Hobj, lookup_alter_eq, Ho. simpl.
  repeat split. intros i Hne. now rewrite lookup_alter_ne.
Qed.

(** The session refuses to let go of the connection rooted at "/faulty";
    its subscriptions are disposed all the same. *)
Lemma close_always_disposes_witness :
  subscriptions_of Scenario.faulty
    (snd (close Scenario.ext0 Scenario.faulty true (Scenario.world_with Scenario.faulty)))
  = ([], true).
Proof.
  apply (close_always_disposes Scenario.ext0 Scenario.faulty true
           (Scenario.world_with Scenario.faulty)).
  vm_compute. eauto.
Defined.

(** ** Errors of the reconnection *)








(** ** What [findOrCreate] leaves registered *)

Lemma filter_all {A} (f : A -> bool) (l : list A) :
  (forall x, x ∈ l -> f x = true) -> List.filter f l = l.
Proof.
  induction l as [|x l IH]; intros H; [reflexivity|]. simpl.
  rewrite (H x) by now left. f_equal. apply IH. intros y Hy. apply H. now right.
Qed.

Lemma filter_filter_andb {A} (f g : A -> bool) (l : list A) :
  List.filter g (List.filter f l) = List.filter (fun x => f x && g x) l.
Proof.
  induction l as [|x l IH]; [reflexivity|]. simpl.
  destruct (f x); simpl; [destruct (g x)|]; now rewrite IH.
Qed.

Lemma elem_of_filter_bool {A} (f : A -> bool) (l : list A) (x : A) :
  x ∈ List.filter f l <-> x ∈ l /\ f x = true.
Proof. rewrite !list_elem_of_In. apply List.filter_In. Qed.

Lemma NoDup_oid_filter (f : RemoteConnection -> bool) (l : list RemoteConnection) :
  NoDup (map oid l) -> NoDup (map oid (List.filter f l)).
Proof.
  induction l as [|x l IH]; intros Hnd; [exact Hnd|].
  simpl in Hnd. apply NoDup_cons in Hnd as [Hx Hnd]. simpl.
  destruct (f x); [|now apply IH]. simpl. apply NoDup_cons. split; [|now apply IH].
  intros Hin. apply Hx.
  apply list_elem_of_fmap in Hin as (y & Hy & Hin).
  apply elem_of_filter_bool in Hin as [Hin _].
  apply list_elem_of_fmap. eauto.
Qed.

Lemma remove_first_filter (c : RemoteConnection) (l : list RemoteConnection) :
  NoDup (map oid l) ->
  remove_first c l = List.filter (fun x => negb (Nat.eqb (oid x) (oid c))) l.
Proof.
  induction l as [|x l IH]; intros Hnd; [reflexivity|].
  simpl in Hnd. apply NoDup_cons in Hnd as [Hx Hnd]. simpl.
  destruct (Nat.eqb (oid x) (oid c)) eqn:Hxc; simpl.
  - apply Nat.eqb_eq in Hxc. symmetry. apply filter_all.
    intros y Hy. apply negb_true_iff, Nat.eqb_neq. intros Heq. apply Hx.
    rewrite Hxc, <- Heq. apply list_elem_of_fmap. eauto.
  - f_equal. now apply IH.
Qed.

(** The second half of [_initialize], by its outcome. *)
Lemma _initialize_resume_cases (ext : Externals) (c : RemoteConnection) (w : World) :
  match first_failure ext c with
  | None =>
      exists w',
        _initialize_resume ext c
          (getHgRepository ext (_connection c) (getPathForInitialWorkingDirectory c)) w
        = (Returned c, w')
        /\ servers w' = servers w /\ nextOid w' = nextOid w
        /\ exists l, trace w' = trace w ++ l
  | Some e =>
      exists wf,
        _initialize_resume ext c
          (getHgRepository ext (_connection c) (getPathForInitialWorkingDirectory c)) w
        = (Thrown e, snd (close ext c false wf))
        /\ servers wf = servers w /\ nextOid wf = nextOid w
        /\ exists l, trace wf = trace w ++ l
  end.
Proof.
  unfold first_failure, _initialize_resume.
  unfold _setHgRepositoryDescription, emit, _watchRootProjectDirectory.
  destruct (getHgRepository _ _ _) as [d|e].
  - destruct (handlerFault ext "did-add" c) as [e|] eqn:Hh.
    + run_model. rewrite ?Hh. simpl.
      eexists. split; [reflexivity|]. simpl. repeat split; eauto.
    + destruct (watchFault ext c) as [e|] eqn:Hw.
      * run_model. rewrite ?Hh. simpl.
        eexists. split; [reflexivity|]. simpl. repeat split; eauto.
      * run_model. rewrite ?Hh. simpl.
        eexists. split; [reflexivity|]. simpl. repeat split; eauto.
        rewrite <- app_assoc. eauto.
  - run_model. eexists. split; [reflexivity|]. repeat split.
    exists []. now rewrite app_nil_r.
Qed.

Lemma settle_each_trace (ext : Externals) (pending : list RemoteConnection) :
  forall w, exists l,
    trace (snd (settle_each ext pending w)) = trace w ++ l
    /\ nextOid (snd (settle_each ext pending w)) = nextOid w.
Proof.
  induction pending as [|c rest IH]; intros w.
  - exists []. simpl. now rewrite app_nil_r.
  - simpl. pose proof (_initialize_resume_cases ext c w) as Hc.
    destruct (_initialize_resume ext c _ w) as [o w1] eqn:Hrun.
    assert (H1 : (exists l1, trace w1 = trace w ++ l1) /\ nextOid w1 = nextOid w).
    { destruct (first_failure ext c) as [e|].
      - destruct Hc as (wf & [= -> ->] & _ & Hoid & l & Hl).
        destruct (close_trace ext c false wf) as (l' & Hl').
        destruct (close_objects ext c false wf) as [_ Hoid'].
        split; [|congruence].
        exists (l ++ l'). now rewrite Hl', Hl, app_assoc.
      - destruct Hc as (w' & [= -> ->] & _ & Hoid & l & Hl). eauto. }
    destruct H1 as [(l1 & Hl1) Hoid1].
    destruct (IH w1) as (l2 & Hl2 & Hoid2).
    destruct (settle_each ext rest w1) as [os w2]. simpl in *.
    exists (l1 ++ l2). split; [now rewrite Hl2, Hl1, app_assoc | congruence].
Qed.

(** All the initializations settle: which ones fail, and what that does to
    the registry of their session when it lets them go. *)
Lemma settle_each_run (ext : Externals) (sc : string) (pending : list RemoteConnection) :
  forall w,
  (forall c, c ∈ pending -> _connection c = sc) ->
  (forall c e, detachFault ext c false <> FaultBefore e) ->
  NoDup (map oid (getByHostname sc w)) ->
  fst (settle_each ext pending w)
  = map (fun c => match first_failure ext c with
                  | Some e => Thrown e
                  | None => Returned c
                  end) pending
  /\ getByHostname sc (snd (settle_each ext pending w))
     = List.filter
         (fun x => negb (existsb (fun c => Nat.eqb (oid x) (oid c) && negb (initializes ext c))
                           pending))
         (getByHostname sc w).
Proof.
  induction pending as [|c rest IH]; intros w Hsc Hfault Hnd.
  - simpl. split; [reflexivity|]. symmetry. now apply filter_all.
  - simpl. pose proof (_initialize_resume_cases ext c w) as Hc.
    assert (Hcsc : _connection c = sc) by (apply Hsc; now left).
    destruct (_initialize_resume ext c _ w) as [o w1] eqn:Hrun.
    assert (H1 : o = match first_failure ext c with
                     | Some e => Thrown e
                     | None => Returned c
                     end
                 /\ getByHostname sc w1
                    = List.filter
                        (fun x => negb (Nat.eqb (oid x) (oid c) && negb (initializes ext c)))
                        (getByHostname sc w)).
    { unfold initializes. destruct (first_failure ext c) as [e|].
      - destruct Hc as (wf & [= -> ->] & Hsrv & _). split; [reflexivity|].
        rewrite <- Hcsc. rewrite close_registry by (intros e'; apply Hfault).
        rewrite (getByHostname_servers _ w wf Hsrv).
        rewrite remove_first_filter by (now rewrite Hcsc).
        apply List.filter_ext. intros x. now rewrite andb_true_r.
      - destruct Hc as (w' & [= -> <-] & Hsrv & _). split; [reflexivity|].
        rewrite (getByHostname_servers _ w w1 Hsrv). symmetry. apply filter_all.
        intros x _. now rewrite andb_false_r. }
    destruct H1 as [-> Hreg1].
    destruct (IH w1) as [Hos Hreg].
    { intros c' Hin. apply Hsc. now right. }
    { exact Hfault. }
    { rewrite Hreg1. now apply NoDup_oid_filter. }
    destruct (settle_each ext rest w1) as [os w2]. simpl in *.
    split; [now rewrite Hos|].
    rewrite Hreg, Hreg1, filter_filter_andb. apply List.filter_ext.
    intros x. now rewrite negb_orb.
Qed.

Lemma Promise_all_outcomes (ext : Externals) (l : list RemoteConnection) :
  match Promise_all (map (fun c => match first_failure ext c with
                                   | Some e => Thrown e
                                   | None => Returned c
                                   end) l) with
  | Returned res => res = l /\ forall c, c ∈ l -> initializes ext c = true
  | Thrown e => exists c, c ∈ l /\ first_failure ext c = Some e
  end.
Proof.
  induction l as [|c l IH]; simpl.
  - split; [reflexivity|]. intros c Hin. now apply elem_of_nil in Hin.
  - destruct (first_failure ext c) as [e|] eqn:Hc.
    + exists c. split; [now left | exact Hc].
    + destruct (Promise_all _) as [res|e].
      * destruct IH as [-> Hall]. split; [reflexivity|].
        intros c' Hin. apply elem_of_cons in Hin as [->|Hin]; [|now apply Hall].
        unfold initializes. now rewrite Hc.
      * destruct IH as (c' & Hin & Hf). exists c'. split; [now right | exact Hf].
Qed.

Lemma connections_oids (n : nat) (sc : string) (prompt : bool) (dirs : list string) :
  forall (m : nat) (title : nat -> string),
  map oid (imap (fun k d => mkConn (n + (m + k)) d sc (title k) prompt) dirs)
  = seq (n + m) (length dirs).
Proof.
  induction dirs as [|d dirs IH]; intros m title; [reflexivity|].
  rewrite imap_cons. simpl. rewrite Nat.add_0_r. f_equal.
  replace (S (n + m)) with (n + S m) by lia.
  rewrite <- (IH (S m) (fun k => title (S k))). f_equal.
  apply imap_ext. intros k x _. simpl. f_equal. lia.
Qed.

Lemma NoDup_fmap_eq {A B} (f : A -> B) (l : list A) (x y : A) :
  NoDup (map f l) -> x ∈ l -> y ∈ l -> f x = f y -> x = y.
Proof.
  induction l as [|a l IH]; intros Hnd Hx Hy Heq.
  - now apply elem_of_nil in Hx.
  - simpl in Hnd. apply NoDup_cons in Hnd as [Ha Hnd].
    apply elem_of_cons in Hx as [->|Hx]; apply elem_of_cons in Hy as [->|Hy].
    + reflexivity.
    + exfalso. apply Ha. rewrite Heq. apply list_elem_of_fmap. eauto.
    + exfalso. apply Ha. rewrite <- Heq. apply list_elem_of_fmap. eauto.
    + now apply IH.
Qed.

(** X3. Which initializations succeed decides what [findOrCreate] leaves
    registered.  Whatever the directories it resolved, and provided the
    session lets go of the connections that fail, the registry of the
    session ends up as it was, followed by the connections whose
    initialization succeeded, in index order: a failing initialization takes
    its own connection off and leaves its siblings registered.  The result
    is the connection at index 0 when every initialization succeeded, and
    otherwise the failure of one of the connections. *)
Theorem findOrCreate_registers_what_initializes (ext : Externals)
  (config : RemoteConnectionConfiguration) (w : World) (dirs : list string) :
  fst (getOrCreate ext config w) = Returned (host config) ->
  fst (findOrCreate_resolve ext (host config) (cwd config)
         (snd (getOrCreate ext config w))) = Returned (inr dirs) ->
  NoDup (map oid (getByHostname (host config) w)) ->
  (forall c, c ∈ getByHostname (host config) w -> oid c < nextOid w) ->
  (forall c e, detachFault ext c false <> FaultBefore e) ->
  let connections :=
    imap (fun i dir =>
            mkConn (nextOid w + i) dir (host config)
              (if Nat.eqb i 0 then displayTitle config else "")
              (match promptReconnectOnFailure config with
               | Some false => false
               | _ => true
               end)) dirs in
  exists r w',
    findOrCreate ext config w = (r, w')
    /\ getByHostname (host config) w'
       = getByHostname (host config) w ++ List.filter (initializes ext) connections
    /\ match r with
       | Returned res =>
           res = head connections
           /\ forall c, c ∈ connections -> initializes ext c = true
       | Thrown e => exists c, c ∈ connections /\ first_failure ext c = Some e
       end.
Proof.
  intros Hacq Hres Hnd Hlt Hfault connections.
  destruct (getOrCreate_returned _ _ _ _ Hacq)
    as (w1 & Hw1 & Hsome & Hreg & _ & Hoid & _ & _).
  rewrite Hw1 in Hres. simpl in Hres.
  pose proof (findOrCreate_resolve_frame ext (host config) (cwd config) w1) as Hframe.
  destruct (findOrCreate_resolve ext (host config) (cwd config) w1) as [r2 w2] eqn:Hrun.
  simpl in Hres. subst r2. destruct Hframe as (Hsrv & _ & Hoid2 & _).
  destruct (construct_each_run (host config) (displayTitle config)
              (promptReconnectOnFailure config) dirs 0 w2)
    as (w3 & Hcons & Hreg3 & _).
  assert (Hsame :
            imap (fun k d => mkConn (nextOid w2 + k) d (host config)
                               (if Nat.eqb (0 + k) 0 then displayTitle config else "")
                               (match promptReconnectOnFailure config with
                                | Some false => false
                                | _ => true
                                end)) dirs
            = connections).
  { subst connections. apply imap_ext. intros k d _. simpl. now rewrite Hoid2, Hoid. }
  rewrite Hsame in Hcons, Hreg3.
  assert (Hreg3' : getByHostname (host config) w3
                   = getByHostname (host config) w ++ connections).
  { rewrite Hreg3. destruct (decide (host config = host config)); [|contradiction].
    rewrite <- Hreg, Hsrv. unfold getByHostname. now destruct Hsome as [s ->]. }
  assert (Hoids : map oid connections = seq (nextOid w) (length dirs)).
  { pose proof (connections_oids (nextOid w) (host config)
                  (match promptReconnectOnFailure config with
                   | Some false => false
                   | _ => true
                   end) dirs 0
                  (fun k => if Nat.eqb k 0 then displayTitle config else "")) as H.
    rewrite Nat.add_0_r in H. exact H. }
  assert (Hnd3 : NoDup (map oid (getByHostname (host config) w3))).
  { rewrite Hreg3', map_app. apply NoDup_app. split; [exact Hnd|]. split.
    - intros n Hn Hn'. rewrite Hoids in Hn'. apply elem_of_seq in Hn'.
      apply list_elem_of_fmap in Hn as (c & -> & Hc). specialize (Hlt c Hc). lia.
    - rewrite Hoids. apply NoDup_seq. }
  assert (Hsc : forall c, c ∈ connections -> _connection c = host config).
  { intros c Hc. subst connections.
    apply elem_of_lookup_imap in Hc as (i & d & -> & _). reflexivity. }
  destruct (settle_each_run ext (host config) connections w3 Hsc Hfault Hnd3)
    as [Hos Hreg4].
  destruct (settle_each ext connections w3) as [os w4] eqn:Hsettle.
  simpl in Hos, Hreg4. subst os.
  pose proof (Promise_all_outcomes ext connections) as Hall.
  exists (match Promise_all (map (fun c => match first_failure ext c with
                                           | Some e => Thrown e
                                           | None => Returned c
                                           end) connections) with
          | Returned res => Returned (head res)
          | Thrown e => Thrown e
          end), w4.
  split; [|split].
  - unfold findOrCreate. unfold bind at 1. rewrite Hw1.
    unfold bind at 1. unfold try_catch at 1. rewrite Hrun.
    unfold bind at 1. rewrite Hcons. unfold bind at 1. rewrite Hsettle.
    now destruct (Promise_all _).
  - rewrite Hreg4, Hreg3', List.filter_app. f_equal.
    + apply filter_all. intros x Hx. apply negb_true_iff.
      apply not_true_is_false. intros Hex.
      apply existsb_exists in Hex as (c & Hc & Hand).
      apply andb_true_iff in Hand as [Heq _]. apply Nat.eqb_eq in Heq.
      apply list_elem_of_In in Hc.
      assert (Hc' : oid c ∈ map oid connections)
        by (apply list_elem_of_fmap; eauto).
      rewrite Hoids in Hc'. apply elem_of_seq in Hc'.
      specialize (Hlt x Hx). lia.
    + apply List.filter_ext_in. intros x Hx. apply list_elem_of_In in Hx.
      destruct (initializes ext x) eqn:Hok.
      * apply negb_true_iff. apply not_true_is_false. intros Hex.
        apply existsb_exists in Hex as (c & Hc & Hand).
        apply andb_true_iff in Hand as [Heq Hfail]. apply Nat.eqb_eq in Heq.
        apply list_elem_of_In in Hc.
        assert (x = c).
        { apply (NoDup_fmap_eq oid connections); auto.
          rewrite Hoids. apply NoDup_seq. }
        subst c. rewrite Hok in Hfail. discriminate.
      * apply negb_false_iff. apply existsb_exists. exists x.
        split; [now apply list_elem_of_In|].
        now rewrite Nat.eqb_refl, Hok.
  - destruct (Promise_all _) as [res|e].
    + destruct Hall as [-> Hall]. split; [reflexivity | exact Hall].
    + exact Hall.
Qed.

(** "/proj/app.json" lists "a" and "b" and the repository lookup fails for
    "/proj/b": the call fails, "/proj/a" stays registered. *)
Lemma findOrCreate_registers_what_initializes_witness :
  exists r w',
    findOrCreate Scenario2.ext_b_fails (Scenario.cfg "/proj/app.json") Scenario.empty_world
    = (r, w')
    /\ getByHostname "dev" w' = [mkConn 0 "/proj/a" "dev" "App" true]
    /\ exists e, r = Thrown e.
Proof.
  destruct (findOrCreate_registers_what_initializes Scenario2.ext_b_fails
              (Scenario.cfg "/proj/app.json") Scenario.empty_world ["/proj/a"; "/proj/b"])
    as (r & w' & Hrun & Hreg & Hr).
  - vm_compute. reflexivity.
  - vm_compute. reflexivity.
  - vm_compute. apply NoDup_nil_2.
  - intros c Hc. vm_compute in Hc. now apply elem_of_nil in Hc.
  - intros c e.
    change (detachFault Scenario2.ext_b_fails c false)
      with (if String.eqb (_cwd c) "/faulty"
            then FaultAfter Scenario.DetachFailure else NoFault).
    destruct (String.eqb (_cwd c) "/faulty"); discriminate.
  - exists r, w'. split; [exact Hrun|]. split.
    + etransitivity; [exact Hreg | vm_compute; reflexivity].
    + destruct r as [res|e]; [|eauto].
      destruct Hr as [_ Hall].
      specialize (Hall (mkConn 1 "/proj/b" "dev" "" true)).
      assert (Hin : mkConn 1 "/proj/b" "dev" "" true
                    ∈ imap (fun i dir =>
                              mkConn (nextOid Scenario.empty_world + i) dir
                                (host (Scenario.cfg "/proj/app.json"))
                                (if Nat.eqb i 0
                                 then displayTitle (Scenario.cfg "/proj/app.json")
                                 else "")
                                (match promptReconnectOnFailure
                                         (Scenario.cfg "/proj/app.json") with
                                 | Some false => false
                                 | _ => true
                                 end)) ["/proj/a"; "/proj/b"]).
      { simpl. right. left. }
      specialize (Hall Hin). vm_compute in Hall. discriminate Hall.
Defined.

(** ** A plain directory, an empty project, and the project of the editor *)

Lemma findOrCreate_resolve_plain (ext : Externals) (sc dir realPath : string) (w : World) :
  resolveRealPath ext sc dir = Returned realPath ->
  (hasAtomProjectFormat ext realPath = false
   \/ exists e, readFile ext sc realPath = Thrown e) ->
  (realPath = dir \/ uri_isRemote ext dir = false
   \/ getByHostnameAndPath (uri_getHostname ext dir) realPath w = None) ->
  fst (findOrCreate_resolve ext sc dir w) = Returned (inr [realPath]).
Proof.
  intros Hrp Hnot Hnew.
  assert (Hlookup : forall w',
             getByHostnameAndPath (uri_getHostname ext dir) realPath w'
             = getByHostnameAndPath (uri_getHostname ext dir) realPath w ->
             fst ((do existingConnection <-
                     (if negb (String.eqb realPath dir) && uri_isRemote ext dir
                      then fun w => (Returned (getByHostnameAndPath
                                                 (uri_getHostname ext dir) realPath w), w)
                      else ret None) ;
                   match existingConnection with
                   | Some existing => ret (inl existing)
                   | None => ret (inr [realPath])
                   end) w') = Returned (inr [realPath])).
  { intros w' Hsame. unfold bind.
    destruct Hnew as [-> | [Hloc | Hnone]].
    - now rewrite String.eqb_refl.
    - rewrite Hloc, andb_false_r. reflexivity.
    - destruct (negb (String.eqb realPath dir) && uri_isRemote ext dir); [|reflexivity].
      now rewrite Hsame, Hnone. }
  unfold findOrCreate_resolve. unfold bind at 1. unfold bind at 1.
  unfold tell at 1. unfold await at 1. cbn [fst snd]. rewrite Hrp.
  unfold bind at 1.
  destruct (hasAtomProjectFormat ext realPath) eqn:Hfmt.
  - destruct Hnot as [Hnot | [e He]]; [discriminate|].
    unfold bind at 1. unfold tell at 1. unfold await at 1. cbn [fst snd].
    rewrite He. apply Hlookup. reflexivity.
  - unfold ret at 1. apply Hlookup. reflexivity.
Qed.

(** A successful second half of [_initialize], in full. *)
Lemma _initialize_resume_success_world (ext : Externals) (c : RemoteConnection)
  (d : option HgRepositoryDescription) (w : World) :
  handlerFault ext "did-add" c = None ->
  watchFault ext c = None ->
  _initialize_resume ext c (Returned d) w
  = (Returned c,
     mkWorld (servers w)
       (alter (fun o => mkObj (_hgRepositoryDescription o) (_alwaysShutdownIfLast o)
                          (_subscriptions o ++ [getUriForInitialWorkingDirectory c])
                          (_disposed o)) (oid c)
          (alter (fun o => mkObj d (_alwaysShutdownIfLast o) (_subscriptions o)
                             (_disposed o)) (oid c) (objects w)))
       (nextOid w)
       (trace w ++ [EvEmit "did-add" c; EvWatch c])).
Proof.
  intros Hh Hw. unfold _initialize_resume.
  unfold _setHgRepositoryDescription, emit, _watchRootProjectDirectory.
  rewrite Hh, Hw. run_model. now rewrite <- app_assoc.
Qed.

(** X1. When the cwd resolves to a path that is not a project file that can
    be read (its extension is neither .json nor .cson, or reading it fails)
    and no registered connection is reused, [findOrCreate] opens the real
    path itself: it constructs one connection with the real path as cwd and
    the caller's display title, registers it after the connections the
    session already had, and returns it.  The connection holds the
    repository description that the lookup returned and one subscription,
    the watch of its root URI; it is the only connection of its session
    exactly when the session had none; the session is not closed. *)
Theorem findOrCreate_opens_plain_directory (ext : Externals)
  (config : RemoteConnectionConfiguration) (w : World) (realPath : string)
  (d : option HgRepositoryDescription) :
  fst (getOrCreate ext config w) = Returned (host config) ->
  resolveRealPath ext (host config) (cwd config) = Returned realPath ->
  (hasAtomProjectFormat ext realPath = false
   \/ exists e, readFile ext (host config) realPath = Thrown e) ->
  (realPath = cwd config \/ uri_isRemote ext (cwd config) = false
   \/ getByHostnameAndPath (uri_getHostname ext (cwd config)) realPath w = None) ->
  let c := mkConn (nextOid w) realPath (host config) (displayTitle config)
             (match promptReconnectOnFailure config with
              | Some false => false
              | _ => true
              end) in
  getHgRepository ext (host config) realPath = Returned d ->
  handlerFault ext "did-add" c = None ->
  watchFault ext c = None ->
  exists w',
    findOrCreate ext config w = (Returned (Some c), w')
    /\ getByHostname (host config) w' = getByHostname (host config) w ++ [c]
    /\ getHgRepositoryDescription c w' = d
    /\ subscriptions_of c w' = (["nuclide://" +:+ host config +:+ realPath], false)
    /\ alwaysShutdownIfLast c w' = false
    /\ isOnlyConnection c w'
       = match getByHostname (host config) w with [] => true | _ :: _ => false end
    /\ closeCalls (host config) w' = closeCalls (host config) w.
Proof.
  intros Hacq Hrp Hnot Hnew c Hhg Hh Hwatch.
  destruct (getOrCreate_returned _ _ _ _ Hacq)
    as (w1 & Hw1 & Hsome & Hreg & Hcalls & Hoid & Hobj & _).
  assert (Hnew1 : realPath = cwd config \/ uri_isRemote ext (cwd config) = false
                  \/ getByHostnameAndPath (uri_getHostname ext (cwd config)) realPath w1
                     = None).
  { destruct Hnew as [H | [H | H]]; auto. right. right.
    rewrite <- H. apply getByHostnameAndPath_registry, Hreg. }
  pose proof (findOrCreate_resolve_plain ext (host config) (cwd config) realPath w1
                Hrp Hnot Hnew1) as Hres.
  pose proof (findOrCreate_resolve_frame ext (host config) (cwd config) w1) as Hframe.
  destruct (findOrCreate_resolve ext (host config) (cwd config) w1) as [r2 w2] eqn:Hrun.
  simpl in Hres. subst r2. destruct Hframe as (Hsrv & Hobj2 & Hoid2 & _).
  assert (Hn : nextOid w2 = nextOid w) by congruence.
  destruct Hsome as [s Hs].
  assert (Hs2 : servers w2 !! host config = Some s) by now rewrite Hsrv.
  assert (Hold : getByHostname (host config) w = _connections s).
  { rewrite <- Hreg. unfold getByHostname. now rewrite Hs. }
  assert (Hc0 : closeCalls (host config) w = sc_closeCalls s).
  { rewrite <- Hcalls. unfold closeCalls. now rewrite Hs. }
  eexists. split.
  - unfold findOrCreate. unfold bind at 1. rewrite Hw1.
    unfold bind at 1. unfold try_catch at 1. rewrite Hrun.
    unfold bind at 1. simpl construct_each.
    unfold bind at 1. unfold new_RemoteConnection at 1. cbn [fst snd].
    rewrite Hn. fold c.
    unfold bind at 1. rewrite _initialize_begin_run.
    unfold bind at 1. unfold ret at 1. unfold ret at 1.
    unfold bind at 1. simpl settle_each.
    change (getPathForInitialWorkingDirectory c) with realPath.
    change (_connection c) with (host config).
    rewrite Hhg.
    rewrite (_initialize_resume_success_world ext c d _ Hh Hwatch).
    simpl. reflexivity.
  - set (before := getByHostname (host config) w) in *.
    set (calls := closeCalls (host config) w) in *.
    simpl. unfold getByHostname, getHgRepositoryDescription, subscriptions_of,
      alwaysShutdownIfLast, isOnlyConnection, closeCalls. simpl.
    rewrite !lookup_alter_eq, lookup_insert_eq, Hs2. simpl.
    unfold getByHostname. simpl. rewrite !lookup_alter_eq, Hs2. simpl.
    rewrite Hold, Hc0.
    repeat split.
    rewrite length_app. simpl. destruct (_connections s); simpl; [reflexivity|].
    rewrite Nat.add_1_r. reflexivity.
Qed.

(** "/proj" on "dev" is a plain directory: it is opened, described as "hg",
    watched, and is the only connection of the new session. *)
Lemma findOrCreate_opens_plain_directory_witness :
  exists w',
    findOrCreate Scenario2.ext_hg (Scenario.cfg "/proj") Scenario.empty_world
    = (Returned (Some Scenario.proj), w')
    /\ getHgRepositoryDescription Scenario.proj w' = Some "hg"
    /\ subscriptions_of Scenario.proj w' = (["nuclide://dev/proj"], false)
    /\ isOnlyConnection Scenario.proj w' = true.
Proof.
  destruct (findOrCreate_opens_plain_directory Scenario2.ext_hg (Scenario.cfg "/proj")
              Scenario.empty_world "/proj" (Some "hg"))
    as (w' & Hrun & _ & Hhg & Hsub & _ & Honly & _).
  - vm_compute. reflexivity.
  - reflexivity.
  - left. reflexivity.
  - left. reflexivity.
  - reflexivity.
  - reflexivity.
  - reflexivity.
  - exists w'. split; [exact Hrun|]. split; [exact Hhg|]. split; [exact Hsub|].
    etransitivity; [exact Honly | vm_compute; reflexivity].
Defined.

(** X2. A project file whose list of directories is empty opens nothing:
    [findOrCreate] resolves to undefined, constructs and attaches no
    connection, leaves every registry as it was, and does not close the
    session it acquired, even if nothing is attached to it. *)
Theorem findOrCreate_empty_project (ext : Externals)
  (config : RemoteConnectionConfiguration) (w : World) (realPath raw : string)
  (pc : ProjectContents) :
  fst (getOrCreate ext config w) = Returned (host config) ->
  resolveRealPath ext (host config) (cwd config) = Returned realPath ->
  hasAtomProjectFormat ext realPath = true ->
  readFile ext (host config) realPath = Returned raw ->
  fst (parseProject ext raw w) = Returned pc ->
  paths pc = PathsArray [] ->
  (forall f pc', atom_project_replace ext = Some f -> f pc' = None) ->
  exists w',
    findOrCreate ext config w = (Returned None, w')
    /\ (forall h, getByHostname h w' = getByHostname h w)
    /\ nextOid w' = nextOid w
    /\ closeCalls (host config) w' = closeCalls (host config) w
    /\ (forall c, EvAttach c ∉ added w w').
Proof.
  intros Hacq Hrp Hfmt Hread Hparse Hempty Hreplace.
  destruct (getOrCreate_returned _ _ _ _ Hacq)
    as (w1 & Hw1 & _ & Hreg & Hcalls & Hoid & _ & Htr).
  assert (Hparse1 : fst (parseProject ext raw w1) = Returned pc).
  { rewrite parseProject_run in *. exact Hparse. }
  pose proof (findOrCreate_resolve_descriptor ext (host config) (cwd config) realPath raw
                pc w1 Hrp Hfmt Hread Hparse1 Hreplace) as Hres.
  rewrite Hempty in Hres. simpl in Hres.
  pose proof (findOrCreate_resolve_frame ext (host config) (cwd config) w1) as Hframe.
  destruct (findOrCreate_resolve ext (host config) (cwd config) w1) as [r2 w2] eqn:Hrun.
  simpl in Hres. subst r2. destruct Hframe as (Hsrv & _ & Hoid2 & l & Hl & Hnoattach).
  exists w2. split; [|split; [|split; [|split]]].
  - unfold findOrCreate. unfold bind at 1. rewrite Hw1.
    unfold bind at 1. unfold try_catch at 1. rewrite Hrun. reflexivity.
  - intros h. rewrite <- Hreg. now apply getByHostname_servers.
  - congruence.
  - rewrite <- Hcalls. now apply closeCalls_servers.
  - intros c. erewrite added_app by (rewrite Hl, Htr, <- app_assoc; reflexivity).
    simpl. rewrite not_elem_of_cons. split; [discriminate | apply Hnoattach].
Qed.

(** "/proj/app.json" with an empty list: undefined, and the new session of
    "dev" is left open with nothing attached. *)
Lemma findOrCreate_empty_project_witness :
  exists w',
    findOrCreate Scenario2.ext_empty (Scenario.cfg "/proj/app.json") Scenario.empty_world
    = (Returned None, w')
    /\ closeCalls "dev" w' = 0.
Proof.
  destruct (findOrCreate_empty_project Scenario2.ext_empty (Scenario.cfg "/proj/app.json")
              Scenario.empty_world "/proj/app.json" "paths: ['a', 'b']"
              (mkProject (PathsArray []) None ""))
    as (w' & Hrun & _ & _ & Hcalls & _).
  - vm_compute. reflexivity.
  - reflexivity.
  - reflexivity.
  - reflexivity.
  - vm_compute. reflexivity.
  - reflexivity.
  - intros f pc' Hf. discriminate Hf.
  - exists w'. split; [exact Hrun | exact Hcalls].
Defined.

Lemma findOrCreate_resolve_replace (ext : Externals) (sc dir realPath raw : string)
  (pc : ProjectContents) (f : ProjectContents -> option JsError) (w : World) :
  resolveRealPath ext sc dir = Returned realPath ->
  hasAtomProjectFormat ext realPath = true ->
  readFile ext sc realPath = Returned raw ->
  fst (parseProject ext raw w) = Returned pc ->
  atom_project_replace ext = Some f ->
  let dirs :=
    match paths pc with
    | PathsArray l => map (uri_resolve ext (uri_dirname ext realPath)) l
    | PathsUndefined | PathsNotArray _ => [uri_dirname ext realPath]
    end in
  let replaced := mkProject (PathsArray dirs) (Some realPath) (otherKeys pc) in
  exists l0 w',
    findOrCreate_resolve ext sc dir w
    = (match f replaced with
       | Some e => Thrown e
       | None => Returned (inr dirs)
       end, w')
    /\ trace w' = trace w ++ l0 ++ [EvProjectReplace replaced]
    /\ (forall c, EvAttach c ∉ l0)
    /\ (forall pc', EvProjectReplace pc' ∉ l0).
Proof.
  intros Hrp Hfmt Hread Hparse Hf dirs replaced.
  rewrite parseProject_run in Hparse. cbn [fst] in Hparse.
  set (evs := match toml_parse ext raw with
              | Returned _ => []
              | Thrown e => if String.eqb (err_name e) "SyntaxError"
                            then [EvParse Season raw] else []
              end).
  exists ([EvRpc sc FILE_SYSTEM_SERVICE "resolveRealPath" dir;
           EvRpc sc FILE_SYSTEM_SERVICE "readFile" realPath;
           EvParse Toml raw] ++ evs).
  unfold findOrCreate_resolve.
  unfold bind at 1. unfold bind at 1. unfold tell at 1. unfold await at 1.
  cbn [fst snd]. rewrite Hrp.
  unfold bind at 1. rewrite Hfmt.
  unfold bind at 1. unfold tell at 1. unfold await at 1. cbn [fst snd].
  rewrite Hread.
  unfold bind at 1. rewrite parseProject_run. rewrite Hparse. fold evs.
  cbv zeta. rewrite Hf.
  assert (Hdirs : match paths pc with
                  | PathsArray projectPaths =>
                      map (fun path => uri_resolve ext (uri_dirname ext realPath) path)
                        projectPaths
                  | _ => [uri_dirname ext realPath]
                  end = dirs) by (subst dirs; now destruct (paths pc)).
  rewrite Hdirs. fold replaced.
  unfold bind at 1. unfold bind at 1. unfold tell at 1. cbn [fst snd trace].
  assert (Hevs : forall x, (forall p r, x <> EvParse p r) -> x ∉ evs).
  { intros x Hx. subst evs. destruct (toml_parse ext raw) as [|e];
      [apply not_elem_of_nil|].
    destruct (String.eqb (err_name e) "SyntaxError"); [|apply not_elem_of_nil].
    rewrite not_elem_of_cons. split; [apply Hx | apply not_elem_of_nil]. }
  destruct (f replaced) as [e|]; eexists; (split; [reflexivity|]);
    (split; [cbn [trace]; rewrite <- !app_assoc; reflexivity|]);
    split; intros x; rewrite not_elem_of_app, !not_elem_of_cons;
    (split; [repeat split; try discriminate; apply not_elem_of_nil
            | apply Hevs; discriminate]).
Qed.

(** After the guarded block [findOrCreate] only adds to the trace. *)
Lemma findOrCreate_continues (ext : Externals) (config : RemoteConnectionConfiguration)
  (w w1 w2 : World) (r2 : Outcome (RemoteConnection + list string)) :
  getOrCreate ext config w = (Returned (host config), w1) ->
  findOrCreate_resolve ext (host config) (cwd config) w1 = (r2, w2) ->
  exists l, trace (snd (findOrCreate ext config w)) = trace w2 ++ l.
Proof.
  intros Hw1 Hrun.
  unfold findOrCreate. unfold bind at 1. rewrite Hw1.
  unfold bind at 1. unfold try_catch at 1. rewrite Hrun.
  destruct r2 as [[existing|dirs]|e].
  - exists []. simpl. now rewrite app_nil_r.
  - unfold bind at 1.
    destruct (construct_each_run (host config) (displayTitle config)
                (promptReconnectOnFailure config) dirs 0 w2)
      as (w3 & Hcons & _ & l3 & Hl3).
    rewrite Hcons. unfold bind at 1.
    destruct (settle_each_trace ext
                (imap (fun k d => mkConn (nextOid w2 + k) d (host config)
                                    (if Nat.eqb (0 + k) 0 then displayTitle config else "")
                                    (match promptReconnectOnFailure config with
                                     | Some false => false
                                     | _ => true
                                     end)) dirs) w3) as (l4 & Hl4 & _).
    destruct (settle_each ext _ w3) as [os w4]. simpl in Hl4.
    exists (l3 ++ l4). destruct (Promise_all os); simpl;
      now rewrite Hl4, Hl3, app_assoc.
  - unfold bind at 1. unfold getConnections at 1.
    destruct (Nat.eqb _ 0); simpl.
    + eexists. reflexivity.
    + exists []. now rewrite app_nil_r.
Qed.

(** A failure inside the guarded block constructs nothing. *)
Lemma findOrCreate_failed_resolve (ext : Externals)
  (config : RemoteConnectionConfiguration) (w w1 w2 : World) (e : JsError) :
  getOrCreate ext config w = (Returned (host config), w1) ->
  findOrCreate_resolve ext (host config) (cwd config) w1 = (Thrown e, w2) ->
  exists w',
    findOrCreate ext config w = (Thrown e, w')
    /\ nextOid w' = nextOid w2
    /\ forall h, getByHostname h w' = getByHostname h w2.
Proof.
  intros Hw1 Hrun.
  unfold findOrCreate. unfold bind at 1. rewrite Hw1.
  unfold bind at 1. unfold try_catch at 1. rewrite Hrun.
  unfold bind at 1. unfold getConnections at 1.
  destruct (Nat.eqb _ 0); simpl.
  - eexists. split; [reflexivity|]. split; [reflexivity|]. intros h.
    pose proof (sc_close_attached (host config) h w2) as Ha.
    rewrite sc_close_run in Ha. exact Ha.
  - exists w2. split; [reflexivity|]. split; reflexivity.
Qed.

(** X4. When the cwd is a project file and the editor can replace its
    project, [findOrCreate] hands it the parsed project with [paths] set to
    the resolved directories and [originPath] set to the real path of the
    file; this happens before any connection is attached.  If the editor
    raises, the call fails with that error and no connection has been
    constructed or registered. *)
Theorem findOrCreate_replaces_project (ext : Externals)
  (config : RemoteConnectionConfiguration) (w : World) (realPath raw : string)
  (pc : ProjectContents) (replace : ProjectContents -> option JsError) :
  fst (getOrCreate ext config w) = Returned (host config) ->
  resolveRealPath ext (host config) (cwd config) = Returned realPath ->
  hasAtomProjectFormat ext realPath = true ->
  readFile ext (host config) realPath = Returned raw ->
  fst (parseProject ext raw w) = Returned pc ->
  atom_project_replace ext = Some replace ->
  let dirs :=
    match paths pc with
    | PathsArray l => map (uri_resolve ext (uri_dirname ext realPath)) l
    | PathsUndefined | PathsNotArray _ => [uri_dirname ext realPath]
    end in
  let replaced := mkProject (PathsArray dirs) (Some realPath) (otherKeys pc) in
  (exists before after,
      added w (snd (findOrCreate ext config w))
      = before ++ EvProjectReplace replaced :: after
      /\ (forall c, EvAttach c ∉ before)
      /\ (forall pc', EvProjectReplace pc' ∉ before))
  /\ (forall e, replace replaced = Some e ->
        fst (findOrCreate ext config w) = Thrown e
        /\ nextOid (snd (findOrCreate ext config w)) = nextOid w
        /\ forall h, getByHostname h (snd (findOrCreate ext config w))
                     = getByHostname h w).
Proof.
  intros Hacq Hrp Hfmt Hread Hparse Hf dirs replaced.
  destruct (getOrCreate_returned _ _ _ _ Hacq)
    as (w1 & Hw1 & _ & Hreg & _ & Hoid & _ & Htr).
  assert (Hparse1 : fst (parseProject ext raw w1) = Returned pc).
  { rewrite parseProject_run in *. exact Hparse. }
  destruct (findOrCreate_resolve_replace ext (host config) (cwd config) realPath raw pc
              replace w1 Hrp Hfmt Hread Hparse1 Hf)
    as (l0 & w2 & Hrun & Hl0 & Hnoattach & Hnoreplace).
  fold dirs in Hrun, Hl0. fold replaced in Hrun, Hl0.
  split.
  - destruct (findOrCreate_continues ext config w w1 w2 _ Hw1 Hrun) as (l & Hl).
    exists (EvSessionAcquire (host config) :: l0), l. split; [|split].
    + apply added_app. rewrite Hl, Hl0, Htr, <- !app_assoc. reflexivity.
    + intros c. rewrite not_elem_of_cons. split; [discriminate | apply Hnoattach].
    + intros pc'. rewrite not_elem_of_cons. split; [discriminate | apply Hnoreplace].
  - intros e He. rewrite He in Hrun.
    destruct (findOrCreate_failed_resolve ext config w w1 w2 e Hw1 Hrun)
      as (w' & Hr & Hn & Hregs).
    pose proof (findOrCreate_resolve_frame ext (host config) (cwd config) w1) as Hframe.
    rewrite Hrun in Hframe. destruct Hframe as (Hsrv & _ & Hoid2 & _).
    rewrite Hr. simpl.
    split; [reflexivity|]. split; [congruence|].
    intros h. rewrite Hregs, <- Hreg. now apply getByHostname_servers.
Qed.

(** With an editor that accepts: the project handed over lists "/proj/a" and
    "/proj/b" and originates from "/proj/app.json". *)
Lemma findOrCreate_replaces_project_witness :
  exists before after,
    added Scenario.empty_world
      (snd (findOrCreate Scenario2.ext_replace (Scenario.cfg "/proj/app.json")
              Scenario.empty_world))
    = before
      ++ EvProjectReplace (mkProject (PathsArray ["/proj/a"; "/proj/b"])
                             (Some "/proj/app.json") "")
      :: after
    /\ forall c, EvAttach c ∉ before.
Proof.
  destruct (findOrCreate_replaces_project Scenario2.ext_replace
              (Scenario.cfg "/proj/app.json") Scenario.empty_world
              "/proj/app.json" "paths: ['a', 'b']"
              (mkProject (PathsArray ["a"; "b"]) None "") (fun _ => None))
    as [(before & after & Hadd & Hnoattach & _) _].
  - vm_compute. reflexivity.
  - reflexivity.
  - reflexivity.
  - reflexivity.
  - vm_compute. reflexivity.
  - reflexivity.
  - exists before, after. split; [exact Hadd | exact Hnoattach].
Defined.

(** ** The warning shown when the watch fails *)

Lemma list_ascii_of_string_app (s t : string) :
  list_ascii_of_string (s +:+ t) = list_ascii_of_string s ++ list_ascii_of_string t.
Proof.
  induction s as [|a s IH]; [reflexivity|].
  change (a :: list_ascii_of_string (s +:+ t)
          = a :: (list_ascii_of_string s ++ list_ascii_of_string t)).
  now rewrite IH.
Qed.

Lemma string_app_nil_r (s : string) : s +:+ "" = s.
Proof.
  induction s as [|a s IH]; [reflexivity|].
  change (String a (s +:+ "") = String a s). now rewrite IH.
Qed.

Lemma ending_app (n : nat) (s t : string) :
  n <= String.length t -> ending n (s +:+ t) = ending n t.
Proof.
  intros Hn. unfold ending.
  rewrite list_ascii_of_string_app, rev_app_distr.
  apply take_app_le. rewrite length_rev.
  clear s. revert n Hn. induction t as [|a t IH]; intros n Hn; simpl in *; [lia|].
  destruct n; [lia|]. specialize (IH n). lia.
Qed.

Lemma nfs_warning_names (p : string) :
  exists before after, nfs_warning p = before +:+ "`" +:+ p +:+ "`" +:+ after.
Proof.
  exists "This project directory: ". eexists. unfold nfs_warning.
  change "This project directory: `" with ("This project directory: " +:+ "`").
  rewrite string_app_assoc.
  change ("` is on <b>`NFS`</b> filesystem. ")
    with ("`" +:+ " is on <b>`NFS`</b> filesystem. ").
  rewrite (string_app_assoc "`" " is on <b>`NFS`</b> filesystem. ").
  reflexivity.
Qed.

Lemma watchman_warning_names (p : string) :
  exists before after, watchman_warning p = before +:+ "`" +:+ p +:+ "`" +:+ after.
Proof.
  exists "You just connected to a remote project ". eexists. unfold watchman_warning.
  change ("` without Watchman support, which means that ")
    with ("`" +:+ " without Watchman support, which means that ").
  rewrite (string_app_assoc "`" " without Watchman support, which means that ").
  reflexivity.
Qed.

(** X13. When the watch of the root fails and the NFS check answers, the
    user gets exactly one warning, dismissable, whose text names the root
    directory between backquotes.  On NFS nothing is logged at error level
    and the warning has no detail; otherwise the failure is logged at error
    level and the detail is the message of the error, or the error itself
    when its message is empty.  When the NFS check itself fails, the
    callback fails with that error and the user is shown nothing. *)
Theorem onWatchError_warns_once (fs : WatchServices) (c : RemoteConnection)
  (error : JsError) (ed : Editor) (r : Outcome unit) (ed' : Editor) :
  onWatchError fs c error ed = (r, ed') ->
  (forall e,
      isNfs fs (_connection c) (getUriForInitialWorkingDirectory c) = Thrown e ->
      r = Thrown e /\ ed_notices ed' = ed_notices ed
      /\ forall msg, EvLog LError msg ∉ added (ed_world ed) (ed_world ed'))
  /\ (forall nfs,
      isNfs fs (_connection c) (getUriForInitialWorkingDirectory c) = Returned nfs ->
      r = Returned tt
      /\ exists msg detail,
          ed_notices ed' = ed_notices ed ++ [NoticeWarning msg true detail]
          /\ (exists before after, msg = before +:+ "`" +:+ _cwd c +:+ "`" +:+ after)
          /\ detail
             = (if nfs then None
                else Some (if String.eqb (err_message error) ""
                           then DetailError error
                           else DetailMessage (err_message error)))
          /\ (EvLog LError "Watchman failed to start - watcher features disabled!"
              ∈ added (ed_world ed) (ed_world ed') <-> nfs = false)).
Proof.
  unfold onWatchError. cbv zeta.
  destruct (isNfs fs (_connection c) (getUriForInitialWorkingDirectory c))
    as [[|]|e0]; intros [= <- <-]; split.
  - discriminate.
  - intros nfs0 [= <-]. split; [reflexivity|].
    eexists. eexists. split; [reflexivity|]. split.
    + apply nfs_warning_names.
    + split; [reflexivity|].
      erewrite added_app by (simpl; reflexivity).
      split; [|discriminate]. rewrite list_elem_of_singleton. discriminate.
  - discriminate.
  - intros nfs0 [= <-]. split; [reflexivity|].
    eexists. eexists. split; [reflexivity|]. split.
    + destruct (watchman_warning_names (_cwd c)) as (before & after & Hw).
      exists before. eexists.
      change ("" +:+ watchman_warning (getPathForInitialWorkingDirectory c))
        with (watchman_warning (_cwd c)).
      rewrite Hw, !string_app_assoc. reflexivity.
    + split; [reflexivity|].
      erewrite added_app by (simpl; rewrite <- !app_assoc; reflexivity).
      split; [reflexivity|]. intros _. simpl. rewrite !elem_of_cons. auto.
  - intros e [= <-]. split; [reflexivity|]. split; [reflexivity|].
    intros msg. erewrite added_app by (simpl; reflexivity).
    rewrite list_elem_of_singleton. discriminate.
  - discriminate.
Qed.

(** The root "/proj" is not on NFS: one dismissable warning, with the
    message of the error as detail. *)
Lemma onWatchError_warns_once_witness :
  exists msg,
    ed_notices (snd (onWatchError Scenario2.plain_fs Scenario.proj Scenario2.WatchFailure
                       Scenario2.editor0))
    = [NoticeWarning msg true (Some (DetailMessage "watchman not found"))].
Proof.
  destruct (onWatchError_warns_once Scenario2.plain_fs Scenario.proj Scenario2.WatchFailure
              Scenario2.editor0 _ _ (surjective_pairing _)) as [_ H].
  destruct (H false eq_refl) as (_ & msg & detail & Hn & _ & -> & _).
  exists msg. exact Hn.
Defined.

(** X14. The warning ends with the advice to create an empty
    .watchmanconfig exactly when the root is not on NFS and no
    .watchmanconfig was found above it, the search having returned null or
    failed. *)
Theorem onWatchError_advises_watchmanconfig (fs : WatchServices) (c : RemoteConnection)
  (error : JsError) (ed : Editor) (nfs : bool) (msg : string) (dismissable : bool)
  (detail : option Detail) :
  isNfs fs (_connection c) (getUriForInitialWorkingDirectory c) = Returned nfs ->
  last (ed_notices (snd (onWatchError fs c error ed)))
  = Some (NoticeWarning msg dismissable detail) ->
  (exists before, msg = before +:+ watchman_workaround)
  <-> nfs = false
      /\ forall found,
          findNearestAncestorNamed fs (_connection c) ".watchmanconfig"
            (getUriForInitialWorkingDirectory c) <> Returned (Some found).
Proof.
  intros Hnfs. unfold onWatchError. cbv zeta. rewrite Hnfs.
  assert (Hend : forall before, ending 2 (before +:+ watchman_workaround)
                                = ending 2 watchman_workaround).
  { intros before. apply ending_app. vm_compute. lia. }
  destruct nfs.
  - simpl. rewrite last_snoc. intros [= <- _ _].
    split; [|intros [[=] _]]. intros [before Hmsg]. exfalso.
    apply (f_equal (ending 2)) in Hmsg. rewrite Hend in Hmsg.
    change ("" +:+ nfs_warning (getPathForInitialWorkingDirectory c))
      with (nfs_warning (_cwd c)) in Hmsg.
    unfold nfs_warning in Hmsg.
    rewrite <- (string_app_assoc "This project directory: `" (_cwd c)) in Hmsg.
    rewrite ending_app in Hmsg by (vm_compute; lia).
    vm_compute in Hmsg. discriminate Hmsg.
  - simpl. rewrite last_snoc.
    change ("" +:+ watchman_warning (getPathForInitialWorkingDirectory c))
      with (watchman_warning (_cwd c)).
    destruct (findNearestAncestorNamed fs (_connection c) ".watchmanconfig"
                (getUriForInitialWorkingDirectory c)) as [[found|]|e];
      intros [= <- _ _].
    + split; [|intros [_ H]; now destruct (H found)].
      intros [before Hmsg]. exfalso.
      apply (f_equal (ending 2)) in Hmsg. rewrite Hend in Hmsg.
      rewrite string_app_nil_r in Hmsg. unfold watchman_warning in Hmsg.
      rewrite <- (string_app_assoc "You just connected to a remote project " "`") in Hmsg.
      rewrite <- (string_app_assoc _ (_cwd c)) in Hmsg.
      rewrite ending_app in Hmsg by (vm_compute; lia).
      vm_compute in Hmsg. discriminate Hmsg.
    + split; [|eauto]. intros _. split; [reflexivity | discriminate].
    + split; [|eauto]. intros _. split; [reflexivity | discriminate].
Qed.

(** Nothing named .watchmanconfig above "/proj": the advice is given. *)
Lemma onWatchError_advises_watchmanconfig_witness :
  exists before,
    watchman_warning "/proj" +:+ watchman_workaround = before +:+ watchman_workaround.
Proof.
  apply (onWatchError_advises_watchmanconfig Scenario2.plain_fs Scenario.proj
           Scenario2.WatchFailure Scenario2.editor0 false
           (watchman_warning "/proj" +:+ watchman_workaround) true
           (Some (DetailMessage "watchman not found"))).
  - reflexivity.
  - reflexivity.
  - split; [reflexivity|]. intros found. discriminate.
Defined.

(** ** The contributors' package *)

Import Contributors.

Lemma array_indexOf_absent (l : list string) (x : string) :
  (array_indexOf l x = (-1)%Z <-> x ∉ l)
  /\ (array_indexOf l x = (-1)%Z \/ (0 <= array_indexOf l x)%Z).
Proof.
  induction l as [|y l [IH Hrange]]; simpl.
  - split; [|now left]. split; [intros _; apply not_elem_of_nil | reflexivity].
  - destruct (String.eqb y x) eqn:Hyx.
    + apply String.eqb_eq in Hyx. subst y. split; [|right; lia].
      split; [discriminate|]. intros Hn. exfalso. apply Hn. now left.
    + apply String.eqb_neq in Hyx. rewrite not_elem_of_cons.
      destruct Hrange as [Hm | Hpos].
      * rewrite Hm. split; [|now left]. split; [|reflexivity].
        intros _. split; [congruence | now apply IH].
      * assert (Hne : array_indexOf l x <> (-1)%Z) by lia.
        destruct (array_indexOf l x) as [|p|p] eqn:Hidx; try lia.
        -- split; [|right; lia]. split; [discriminate|].
           intros [_ Hn]. apply IH in Hn. discriminate.
        -- split; [|right; lia]. split; [lia|].
           intros [_ Hn]. apply IH in Hn. discriminate.
Qed.

Lemma add_global_path_run (p : string) (rt : Runtime) :
  add_global_path p rt
  = if decide (p ∈ globalPaths rt) then rt
    else mkRuntime (globalPaths rt ++ [p])
           (require_cache rt) (snapshot_cache rt)
           (calls rt ++ [ConsoleLogAdded p]).
Proof.
  unfold add_global_path.
  destruct (array_indexOf_absent (globalPaths rt) p) as [Habs _].
  destruct (Z.eqb_spec (array_indexOf (globalPaths rt) p) (-1))
    as [Heq | Hne].
  - apply Habs in Heq. destruct (decide _); [contradiction | reflexivity].
  - destruct (decide _) as [Hin | Hout]; [reflexivity|].
    apply Habs in Hout. contradiction.
Qed.

Lemma add_global_path_present (p : string) (rt : Runtime) :
  p ∈ globalPaths rt -> add_global_path p rt = rt.
Proof.
  intros Hin. rewrite add_global_path_run. destruct (decide _); [reflexivity | contradiction].
Qed.

Lemma add_global_path_member (p q : string) (rt : Runtime) :
  q ∈ globalPaths (add_global_path p rt) <-> q = p \/ q ∈ globalPaths rt.
Proof.
  rewrite add_global_path_run. destruct (decide _) as [Hin | Hout]; simpl.
  - split; [auto|]. intros [-> | H]; assumption.
  - rewrite elem_of_app, list_elem_of_singleton. tauto.
Qed.

(** X15. With the nuclide package loaded, the command that adds its module
    directories to [Module.globalPaths] leaves both directories in the list,
    keeps the entries that were there in place, appends only those of the
    two that were missing, none of them twice, and logs one line for each
    path it appended; the module caches are untouched. *)
Theorem add_global_paths_ensures (api : Api) (rt : Runtime) (nuclidePack : Package) :
  getLoadedPackage api "nuclide" = Some nuclidePack ->
  let node_modules := path_join api (pack_path nuclidePack) "node_modules" in
  let pkg := path_join api (pack_path nuclidePack) "pkg" in
  let rt' := add_nuclide_modules_to_global_paths api rt in
  node_modules ∈ globalPaths rt'
  /\ pkg ∈ globalPaths rt'
  /\ (exists appended,
         globalPaths rt' = globalPaths rt ++ appended
         /\ NoDup appended
         /\ (forall x, x ∈ appended
                       <-> (x = node_modules \/ x = pkg) /\ x ∉ globalPaths rt)
         /\ calls rt' = calls rt ++ map ConsoleLogAdded appended)
  /\ require_cache rt' = require_cache rt
  /\ snapshot_cache rt' = snapshot_cache rt.
Proof.
  intros Hloaded node_modules pkg rt'.
  subst rt'. unfold add_nuclide_modules_to_global_paths. rewrite Hloaded.
  simpl. fold node_modules pkg.
  split; [apply add_global_path_member; right; apply add_global_path_member; now left|].
  split; [apply add_global_path_member; now left|].
  rewrite !add_global_path_run.
  destruct (decide (node_modules ∈ globalPaths rt)) as [H1 | H1]; simpl.
  - destruct (decide (pkg ∈ globalPaths rt)) as [H2 | H2]; simpl.
    + split; [|split; reflexivity]. exists []. rewrite !app_nil_r.
      split; [reflexivity|]. split; [apply NoDup_nil_2|]. split; [|reflexivity].
      intros x. rewrite elem_of_nil. split; [tauto|].
      intros [[-> | ->] Hn]; contradiction.
    + split; [|split; reflexivity]. exists [pkg].
      split; [reflexivity|]. split; [apply NoDup_singleton|]. split; [|reflexivity].
      intros x. rewrite list_elem_of_singleton. split.
      * intros ->. split; [now right | exact H2].
      * intros [[-> | ->] Hn]; [contradiction | reflexivity].
  - destruct (decide (pkg ∈ globalPaths rt ++ [node_modules])) as [H2 | H2]; simpl.
    + split; [|split; reflexivity]. exists [node_modules].
      split; [reflexivity|]. split; [apply NoDup_singleton|]. split; [|reflexivity].
      intros x. rewrite list_elem_of_singleton. split.
      * intros ->. split; [now left | exact H1].
      * intros [[-> | ->] Hn]; [reflexivity|].
        apply elem_of_app in H2 as [H2 | H2]; [contradiction|].
        now apply list_elem_of_singleton in H2.
    + split; [|split; reflexivity]. exists [node_modules; pkg].
      rewrite not_elem_of_app, list_elem_of_singleton in H2. destruct H2 as [H2 Hne].
      split; [now rewrite <- app_assoc|]. split.
      * apply NoDup_cons. split; [|apply NoDup_singleton].
        rewrite list_elem_of_singleton. congruence.
      * split; [|simpl; now rewrite <- app_assoc].
        intros x. rewrite !elem_of_cons, elem_of_nil. split.
        -- intros [-> | [-> | []]]; auto.
        -- intros [[-> | ->] _]; auto.
Qed.

(** Nuclide lives in "/opt/nuclide": both of its directories are added. *)
Lemma add_global_paths_ensures_witness :
  "/opt/nuclide/node_modules"
  ∈ globalPaths (add_nuclide_modules_to_global_paths Scenario2.api0 Scenario2.runtime0)
  /\ "/opt/nuclide/pkg"
     ∈ globalPaths (add_nuclide_modules_to_global_paths Scenario2.api0 Scenario2.runtime0).
Proof.
  destruct (add_global_paths_ensures Scenario2.api0 Scenario2.runtime0 Scenario2.nuclide
              eq_refl) as (H1 & H2 & _).
  split; [exact H1 | exact H2].
Defined.

(** X16. The command is idempotent when nuclide is loaded: running it a
    second time changes neither [Module.globalPaths] nor anything else, and
    logs nothing. *)
Theorem add_global_paths_idempotent (api : Api) (rt : Runtime) (nuclidePack : Package) :
  getLoadedPackage api "nuclide" = Some nuclidePack ->
  add_nuclide_modules_to_global_paths api (add_nuclide_modules_to_global_paths api rt)
  = add_nuclide_modules_to_global_paths api rt.
Proof.
  intros Hloaded. unfold add_nuclide_modules_to_global_paths. rewrite Hloaded. simpl.
  set (node_modules := path_join api (pack_path nuclidePack) "node_modules").
  set (pkg := path_join api (pack_path nuclidePack) "pkg").
  set (rt' := add_global_path pkg (add_global_path node_modules rt)).
  rewrite (add_global_path_present node_modules rt').
  - apply add_global_path_present. apply add_global_path_member. now left.
  - apply add_global_path_member. right. apply add_global_path_member. now left.
Qed.

Lemma add_global_paths_idempotent_witness :
  add_nuclide_modules_to_global_paths Scenario2.api0
    (add_nuclide_modules_to_global_paths Scenario2.api0 Scenario2.runtime0)
  = add_nuclide_modules_to_global_paths Scenario2.api0 Scenario2.runtime0.
Proof.
  apply (add_global_paths_idempotent Scenario2.api0 Scenario2.runtime0 Scenario2.nuclide).
  reflexivity.
Defined.

Lemma string_index_cons (s : string) (b : Ascii.ascii) (k : string) :
  String.index 0 s (String b k)
  = if String.prefix s (String b k) then Some 0
    else match String.index 0 s k with
         | Some n => Some (S n)
         | None => None
         end.
Proof. reflexivity. Qed.

Lemma string_indexOf_zero (k s : string) :
  string_indexOf k s = 0%Z <-> startsWith k s = true.
Proof.
  unfold string_indexOf, startsWith. destruct k as [|b k].
  - destruct s; simpl; split; (reflexivity || discriminate).
  - rewrite string_index_cons.
    destruct (String.prefix s (String b k)) eqn:Hp; [split; reflexivity|].
    destruct (String.index 0 s k); split; try discriminate; lia.
Qed.

Lemma string_app_eq_nil (a b : string) : a +:+ b = "" -> a = "" /\ b = "".
Proof.
  destruct a as [|c a]; [intros H; split; [reflexivity | exact H]|].
  change (String c (a +:+ b) = "" -> String c a = "" /\ b = ""). discriminate.
Qed.

Lemma string_index_contains (k s : string) :
  String.index 0 s k <> None <-> exists pre post, k = pre +:+ s +:+ post.
Proof.
  induction k as [|b k IH].
  - destruct s as [|a s]; simpl.
    + split; [intros _; exists "", ""; reflexivity | discriminate].
    + split; [congruence|]. intros (pre & post & H). symmetry in H.
      apply string_app_eq_nil in H as [_ H]. discriminate.
  - rewrite string_index_cons.
    destruct (String.prefix s (String b k)) eqn:Hp.
    + split; [|discriminate]. intros _.
      apply (startsWith_iff (String b k) s) in Hp as [post Hpost].
      exists "", post. exact Hpost.
    + split.
      * intros Hidx. destruct (String.index 0 s k) eqn:Hi; [|congruence].
        destruct IH as [IH _]. destruct IH as (pre & post & ->); [discriminate|].
        exists (String b pre), post. reflexivity.
      * intros (pre & post & Hk). destruct pre as [|a pre].
        -- assert (String.prefix s (String b k) = true).
           { apply (startsWith_iff (String b k) s). exists post. exact Hk. }
           congruence.
        -- change (String b k = String a (pre +:+ s +:+ post)) in Hk.
           injection Hk as _ Hk.
           destruct IH as [_ IH]. destruct (String.index 0 s k); [discriminate|].
           exfalso. apply IH; eauto.
Qed.

Lemma string_indexOf_contains (k s : string) :
  string_indexOf k s <> (-1)%Z <-> exists pre post, k = pre +:+ s +:+ post.
Proof.
  rewrite <- string_index_contains. unfold string_indexOf.
  destruct (String.index 0 s k); split; try congruence; try lia; discriminate.
Qed.

(** X17. Once the old package has been deactivated, a reload deletes from
    [require.cache] exactly the entries whose key starts with the directory
    of the package followed by the path separator, and from the snapshot
    cache, when there is one, exactly the entries whose key contains that
    string anywhere; every other entry keeps its value, and
    [Module.globalPaths] is unchanged.  This holds whether or not the
    package is loaded again. *)
Theorem _reloader_purges_caches (api : Api) (name : string) (rt : Runtime)
  (pack : Package) :
  getLoadedPackage api name = Some pack ->
  deactivatePackage api name = None ->
  let dir := pack_path pack +:+ path_sep api in
  let rt' := snd (_reloader api name rt) in
  (forall k, require_cache rt' !! k
             = if startsWith k dir then None else require_cache rt !! k)
  /\ match snapshot_cache rt with
     | Some cache =>
         exists cache',
           snapshot_cache rt' = Some cache'
           /\ forall k v,
               cache' !! k = Some v
               <-> cache !! k = Some v /\ ~ exists pre post, k = pre +:+ dir +:+ post
     | None => snapshot_cache rt' = None
     end
  /\ globalPaths rt' = globalPaths rt.
Proof.
  intros Hpack Hdeact dir rt'. subst rt'. unfold _reloader.
  rewrite Hpack, Hdeact. cbv zeta. fold dir.
  assert (Hcache : forall k,
             filter (fun kv => string_indexOf (fst kv) dir <> 0%Z) (require_cache rt) !! k
             = if startsWith k dir then None else require_cache rt !! k).
  { intros k. apply option_eq. intros v. rewrite map_lookup_filter_Some. simpl.
    rewrite string_indexOf_zero.
    destruct (startsWith k dir); split.
    - intros [_ H]. now destruct H.
    - discriminate.
    - intros [H _]. exact H.
    - intros H. split; [exact H | discriminate]. }
  destruct (loadPackage api (pack_path pack)); simpl.
  - split; [exact Hcache|]. split; [|reflexivity].
    destruct (snapshot_cache rt) as [cache|]; [|reflexivity].
    eexists. split; [reflexivity|]. intros k v.
    rewrite map_lookup_filter_Some. simpl.
    rewrite <- string_indexOf_contains.
    destruct (Z.eq_dec (string_indexOf k dir) (-1)%Z); tauto.
  - split; [exact Hcache|]. split; [|reflexivity].
    destruct (snapshot_cache rt) as [cache|]; [|reflexivity].
    eexists. split; [reflexivity|]. intros k v.
    rewrite map_lookup_filter_Some. simpl.
    rewrite <- string_indexOf_contains.
    destruct (Z.eq_dec (string_indexOf k dir) (-1)%Z); tauto.
Qed.

(** Reloading nuclide from "/opt/nuclide": its main module leaves the
    cache, the module of another package stays. *)
Lemma _reloader_purges_caches_witness :
  require_cache (snd (_reloader Scenario2.api0 "nuclide" Scenario2.runtime0))
    !! "/opt/nuclide/lib/main.js" = None
  /\ require_cache (snd (_reloader Scenario2.api0 "nuclide" Scenario2.runtime0))
       !! "/opt/other/index.js" = Some "other".
Proof.
  destruct (_reloader_purges_caches Scenario2.api0 "nuclide" Scenario2.runtime0
              Scenario2.nuclide eq_refl eq_refl) as (Hcache & _).
  split.
  - rewrite (Hcache "/opt/nuclide/lib/main.js"). reflexivity.
  - rewrite (Hcache "/opt/other/index.js"). vm_compute. reflexivity.
Defined.

(** X18. The reloader activates a package only at the end of a complete
    reload: if its run adds a call of [activateNow] on a package, then the
    run returned, the package is the one [loadPackage] gave for the path of
    the package that was loaded under the name, and the calls of the run
    are, in this order, deactivating and unloading the name, loading the
    path, [activateResources] and [activateNow]. *)
Theorem _reloader_activates_after_reload (api : Api) (name : string) (rt : Runtime)
  (p : Package) (l : list Call) :
  calls (snd (_reloader api name rt)) = calls rt ++ l ->
  ActivateNow p ∈ l ->
  fst (_reloader api name rt) = Returned tt
  /\ exists pack,
       getLoadedPackage api name = Some pack
       /\ deactivatePackage api name = None
       /\ loadPackage api (pack_path pack) = Some p
       /\ l = [DeactivatePackage name; UnloadPackage name; LoadPackage (pack_path pack);
               ActivateResources p; ActivateNow p].
Proof.
  unfold _reloader.
  destruct (getLoadedPackage api name) as [pack|] eqn:Hpack.
  - destruct (deactivatePackage api name) as [e|] eqn:Hdeact.
    + simpl. intros Hl Hin. apply app_inv_head in Hl. subst l.
      apply list_elem_of_singleton in Hin. discriminate.
    + cbv zeta. destruct (loadPackage api (pack_path pack)) as [pkg|] eqn:Hload.
      * simpl. rewrite <- !app_assoc. simpl. intros Hl Hin.
        apply app_inv_head in Hl. subst l.
        rewrite !elem_of_cons in Hin.
        destruct Hin as [H|[H|[H|[H|[H|H]]]]]; try discriminate.
        -- injection H as ->. split; [reflexivity|].
           exists pack. repeat split; assumption.
        -- apply elem_of_nil in H. destruct H.
      * simpl. rewrite <- !app_assoc. simpl. intros Hl Hin.
        apply app_inv_head in Hl. subst l.
        rewrite !elem_of_cons in Hin.
        destruct Hin as [H|[H|[H|H]]]; try discriminate.
        apply elem_of_nil in H. destruct H.
  - simpl. intros Hl Hin. apply app_inv_head in Hl. subst l.
    apply list_elem_of_singleton in Hin. discriminate.
Qed.

Lemma _reloader_activates_after_reload_witness :
  fst (_reloader Scenario2.api0 "nuclide" Scenario2.runtime0) = Returned tt
  /\ exists pack,
       getLoadedPackage Scenario2.api0 "nuclide" = Some pack
       /\ deactivatePackage Scenario2.api0 "nuclide" = None
       /\ loadPackage Scenario2.api0 (pack_path pack) = Some Scenario2.nuclide
       /\ [DeactivatePackage "nuclide"; UnloadPackage "nuclide"; LoadPackage "/opt/nuclide";
           ActivateResources Scenario2.nuclide; ActivateNow Scenario2.nuclide]
          = [DeactivatePackage "nuclide"; UnloadPackage "nuclide";
             LoadPackage (pack_path pack);
             ActivateResources Scenario2.nuclide; ActivateNow Scenario2.nuclide].
Proof.
  apply (_reloader_activates_after_reload Scenario2.api0 "nuclide" Scenario2.runtime0
           Scenario2.nuclide).
  - reflexivity.
  - rewrite !elem_of_cons. do 4 right. left. reflexivity.
Defined.

(** X19. The reloader fails in two ways only, and both leave the package
    inactive.  Either deactivating the loaded package failed: the error is
    that failure, the package was not unloaded and both caches are as they
    were.  Or deactivating succeeded and [loadPackage] gave nothing: the
    error is the one of [invariant], the package has been unloaded and
    nothing was activated. *)
Theorem _reloader_failure (api : Api) (name : string) (rt : Runtime) (e : JsError) :
  fst (_reloader api name rt) = Thrown e ->
  let rt' := snd (_reloader api name rt) in
  exists pack,
    getLoadedPackage api name = Some pack
    /\ ((deactivatePackage api name = Some e
         /\ calls rt' = calls rt ++ [DeactivatePackage name]
         /\ require_cache rt' = require_cache rt
         /\ snapshot_cache rt' = snapshot_cache rt)
        \/ (deactivatePackage api name = None
            /\ loadPackage api (pack_path pack) = None
            /\ e = invariant_violation api
            /\ calls rt' = calls rt ++ [DeactivatePackage name; UnloadPackage name;
                                        LoadPackage (pack_path pack)])).
Proof.
  unfold _reloader.
  destruct (getLoadedPackage api name) as [pack|] eqn:Hpack; [|discriminate].
  destruct (deactivatePackage api name) as [e'|] eqn:Hdeact.
  - simpl. intros [= ->]. exists pack. split; [reflexivity|]. left.
    repeat split; reflexivity.
  - cbv zeta. destruct (loadPackage api (pack_path pack)) as [pkg|] eqn:Hload;
      [discriminate|].
    simpl. intros [= <-]. exists pack. split; [reflexivity|]. right.
    split; [reflexivity|]. split; [exact Hload|]. split; [reflexivity|].
    rewrite <- !app_assoc. reflexivity.
Qed.

Lemma _reloader_failure_witness :
  exists pack,
    getLoadedPackage Scenario2.api_busy "nuclide" = Some pack
    /\ ((deactivatePackage Scenario2.api_busy "nuclide" = Some Scenario2.Busy
         /\ calls (snd (_reloader Scenario2.api_busy "nuclide" Scenario2.runtime0))
            = calls Scenario2.runtime0 ++ [DeactivatePackage "nuclide"]
         /\ require_cache (snd (_reloader Scenario2.api_busy "nuclide" Scenario2.runtime0))
            = require_cache Scenario2.runtime0
         /\ snapshot_cache (snd (_reloader Scenario2.api_busy "nuclide" Scenario2.runtime0))
            = snapshot_cache Scenario2.runtime0)
        \/ (deactivatePackage Scenario2.api_busy "nuclide" = None
            /\ loadPackage Scenario2.api_busy (pack_path pack) = None
            /\ Scenario2.Busy = invariant_violation Scenario2.api_busy
            /\ calls (snd (_reloader Scenario2.api_busy "nuclide" Scenario2.runtime0))
               = calls Scenario2.runtime0
                 ++ [DeactivatePackage "nuclide"; UnloadPackage "nuclide";
                     LoadPackage (pack_path pack)])).
Proof.
  apply (_reloader_failure Scenario2.api_busy "nuclide" Scenario2.runtime0 Scenario2.Busy).
  reflexivity.
Defined.

(** X20. Saving the state always returns and raises exactly one
    notification, as its last call.  [loadState] is called exactly when
    [saveState] succeeded.  The notification is the info 'State saved!'
    exactly when both succeeded; when either failed it is an error whose
    text is 'Failed to save state: ' followed by the message of the
    failure, which has been logged to the console before.  Neither cache
    nor [Module.globalPaths] changes. *)
Theorem save_atom_state_notifies_once (api : Api) (rt : Runtime) :
  let rt' := snd (save_atom_state api rt) in
  fst (save_atom_state api rt) = Returned tt
  /\ (exists pre n,
        calls rt' = calls rt ++ pre ++ [Notify n]
        /\ (forall m, Notify m ∉ pre)
        /\ (LoadState ∈ pre <-> saveState api = None)
        /\ (n = NoticeInfo "State saved!"
            <-> saveState api = None /\ exists state, loadState api = Returned state)
        /\ (forall err,
              saveState api = Some err
              \/ (saveState api = None /\ loadState api = Thrown err) ->
              n = NoticeError ("Failed to save state: " +:+ err_message err)
              /\ ConsoleLogError err ∈ pre))
  /\ globalPaths rt' = globalPaths rt
  /\ require_cache rt' = require_cache rt
  /\ snapshot_cache rt' = snapshot_cache rt.
Proof.
  unfold save_atom_state.
  destruct (saveState api) as [err|] eqn:Hsave.
  - simpl. split; [reflexivity|]. split; [|repeat split; reflexivity].
    exists [SaveState; ConsoleLogError err], (NoticeError ("Failed to save state: " +:+ err_message err)).
    split; [rewrite <- ?app_assoc; reflexivity|].
    split.
    { intros m. rewrite !elem_of_cons.
      intros [H|[H|H]]; try discriminate. apply elem_of_nil in H. destruct H. }
    split.
    { split; [|discriminate]. rewrite !elem_of_cons.
      intros [H|[H|H]]; try discriminate. apply elem_of_nil in H. destruct H. }
    split.
    { split; [discriminate | intros [H _]; discriminate]. }
    intros err' [[= <-]|[H _]]; [|discriminate].
    split; [reflexivity|]. rewrite !elem_of_cons. right. left. reflexivity.
  - destruct (loadState api) as [state|err] eqn:Hload.
    + simpl. split; [reflexivity|]. split; [|repeat split; reflexivity].
      exists [SaveState; LoadState; ConsoleLog state], (NoticeInfo "State saved!").
      split; [rewrite <- ?app_assoc; reflexivity|].
      split.
      { intros m. rewrite !elem_of_cons.
        intros [H|[H|[H|H]]]; try discriminate. apply elem_of_nil in H. destruct H. }
      split.
      { split; [reflexivity|]. intros _. rewrite !elem_of_cons. right. left. reflexivity. }
      split.
      { split; [|reflexivity]. intros _. split; [reflexivity|]. exists state. reflexivity. }
      intros err' [H|[_ H]]; discriminate.
    + simpl. split; [reflexivity|]. split; [|repeat split; reflexivity].
      exists [SaveState; LoadState; ConsoleLogError err],
        (NoticeError ("Failed to save state: " +:+ err_message err)).
      split; [rewrite <- ?app_assoc; reflexivity|].
      split.
      { intros m. rewrite !elem_of_cons.
        intros [H|[H|[H|H]]]; try discriminate. apply elem_of_nil in H. destruct H. }
      split.
      { split; [reflexivity|]. intros _. rewrite !elem_of_cons. right. left. reflexivity. }
      split.
      { split; [discriminate|]. intros [_ [state H]]. discriminate. }
      intros err' [H|[_ [= <-]]]; [discriminate|].
      split; [reflexivity|]. rewrite !elem_of_cons. do 2 right. left. reflexivity.
Qed.
